(** * A shallow embedding of [sudoku_solver.py]

    The board is the Python list of nine lists of nine [int]s, the value
    [-1] marking an empty cell.  The candidate grid ("possibilities")
    mirrors it with [None] for a filled cell and a list of digits for an
    open one.  Python indexes both grids with [grid[r][c]]; on a grid that
    is not 9x9 that raises [IndexError], so every general statement below
    carries the 9x9 shape as an explicit hypothesis and the total lookup
    [!!!] is only ever read inside that shape. *)

From Stdlib Require Import String Ascii DecimalString.
From Stdlib Require Import ZArith List Bool Lia FinFun Sorted.
From stdpp Require Import base list.
Import ListNotations.

Local Open Scope Z_scope.

(** ** Data model *)

Abbreviation board := (list (list Z)).
Abbreviation candidates := (option (list Z)).
Abbreviation possibilities := (list (list (option (list Z)))).

Inductive state : Set :=
| NOT_FINISH
| FINISH_SUCCESS
| FINISH_FAILURE.

(** [range(lo, hi)] over Python integers. *)
Definition range (lo hi : nat) : list Z :=
  map Z.of_nat (seq lo (hi - lo)).

(** Index ranges of the [for] loops. *)
Definition indices (lo hi : nat) : list nat := seq lo (hi - lo).

(** [x in l] on a list of integers. *)
Definition mem (x : Z) (l : list Z) : bool := existsb (Z.eqb x) l.

(** [l.count(x)]. *)
Definition count (x : Z) (l : list Z) : nat := count_occ Z.eq_dec l x.

(** [sudoku_board[r][c]]. *)
Definition cell (sudoku_board : board) (r c : nat) : Z :=
  (sudoku_board !!! r) !!! c.

(** [possibilities[r][c]]. *)
Definition entry (poss : possibilities) (r c : nat) : candidates :=
  (poss !!! r) !!! c.

(** [grid[r][c] = v]: the row object is updated in place.  Outside the
    grid Python raises [IndexError] where the insertion below leaves the
    grid as it is; the source only ever writes at coordinates it has just
    read. *)
Definition assign {A : Type} `{Inhabited A} (grid : list (list A)) (r c : nat) (v : A)
  : list (list A) :=
  <[r := <[c := v]> (grid !!! r)]> grid.

(** The 9x9 shape. *)
Definition shape9 {A : Type} (grid : list (list A)) : Prop :=
  length grid = 9%nat /\ Forall (fun row => length row = 9%nat) grid.

(** ** Helper functions *)

(** The list comprehensions that collect a column and a 3x3 square. *)
Definition column (sudoku_board : board) (c : nat) : list Z :=
  map (fun i => cell sudoku_board i c) (indices 0 9).

Definition square (sudoku_board : board) (r0 c0 : nat) : list Z :=
  flat_map (fun i => map (fun j => cell sudoku_board i j) (indices c0 (c0 + 3)))
           (indices r0 (r0 + 3)).

Definition option_in_part (row : list Z) : list Z :=
  List.filter (fun num => negb (mem num row)) (range 1 10).

Definition options (sudoku_board : board) (loc : nat * nat) : list Z :=
  let '(r, c) := loc in
  if negb (cell sudoku_board r c =? -1) then []
  else
    let opts_row := option_in_part (sudoku_board !!! r) in
    let opts_col := option_in_part (column sudoku_board c) in
    let r0 := (3 * (r / 3))%nat in
    let c0 := (3 * (c / 3))%nat in
    let square_vals := square sudoku_board r0 c0 in
    let opts_square := option_in_part square_vals in
    List.filter (fun n => mem n opts_row && mem n opts_col) opts_square.

Definition possible_digits (sudoku_board : board) : possibilities :=
  map (fun r =>
         map (fun c =>
                if cell sudoku_board r c =? -1
                then Some (options sudoku_board (r, c))
                else None)
             (indices 0 9))
      (indices 0 9).

Definition check_final_board (sudoku_board : board) : bool :=
  forallb (fun x => negb (x =? -1)) (concat sudoku_board).

Definition check_part_for_failure (part : list Z) : bool :=
  existsb (fun num => (1 <? count num part)%nat && negb (num =? -1)) (range 0 9).

Definition is_board_failure (sudoku_board : board) : bool :=
  existsb (fun i => check_part_for_failure (sudoku_board !!! i)
                    || check_part_for_failure (column sudoku_board i))
          (indices 0 9)
  || existsb (fun r0 =>
                existsb (fun c0 => check_part_for_failure (square sudoku_board r0 c0))
                        [0; 3; 6]%nat)
             [0; 3; 6]%nat.

Definition has_len (n : nat) (opt : candidates) : bool :=
  match opt with
  | Some opts => (length opts =? n)%nat
  | None => false
  end.

Definition possible_continuation (poss : possibilities) : bool :=
  existsb (has_len 1) (concat poss).

Definition is_out_of_options (poss : possibilities) : bool :=
  existsb (has_len 0) (concat poss).

(** One visit of the double loop of [find_least_options]; the accumulator
    is the pair [(min_len, min_loc)]. *)
Definition least_visit (poss : possibilities)
           (acc : nat * option (Z * Z)) (rc : nat * nat) : nat * option (Z * Z) :=
  let '(min_len, min_loc) := acc in
  let '(r, c) := rc in
  match entry poss r c with
  | Some opts =>
      if (0 <? length opts)%nat && (length opts <? min_len)%nat
      then (length opts, Some (Z.of_nat r, Z.of_nat c))
      else acc
  | None => acc
  end.

Definition find_least_options (poss : possibilities) : option (Z * Z) :=
  snd (fold_left
         (fun acc r =>
            fold_left (fun acc c => least_visit poss acc (r, c)) (indices 0 9) acc)
         (indices 0 9) (10%nat, None)).

(** ** Core solving routines *)

(** One visit of the double loop that fills the cells with a single
    candidate; the state is [(sudoku_board, possibilities, updated)], both
    grids being mutated in place by the source. *)
Definition fill_visit (st : board * possibilities * bool) (rc : nat * nat)
  : board * possibilities * bool :=
  let '(sudoku_board, poss, updated) := st in
  let '(r, c) := rc in
  match entry poss r c with
  | Some opts =>
      if (length opts =? 1)%nat
      then (assign sudoku_board r c (opts !!! 0%nat), assign poss r c None, true)
      else st
  | None => st
  end.

Definition fill_singles (sudoku_board : board) (poss : possibilities)
  : board * possibilities * bool :=
  fold_left
    (fun st r => fold_left (fun st c => fill_visit st (r, c)) (indices 0 9) st)
    (indices 0 9) (sudoku_board, poss, false).

(** What [one_stage] hands back: the returned pair [(state, loc)] together
    with the two grids as the call leaves them. *)
Record outcome : Type := Outcome {
  out_state : state;
  out_loc : option (Z * Z);
  out_board : board;
  out_poss : possibilities
}.

(** One iteration of the [while True] loop of [one_stage]: it either
    returns or goes round again with the mutated grids. *)
Inductive iteration : Type :=
| Return (o : outcome)
| Again (sudoku_board : board) (poss : possibilities).

Definition one_stage_body (sudoku_board : board) (poss : possibilities) : iteration :=
  if is_board_failure sudoku_board || is_out_of_options poss
  then Return (Outcome FINISH_FAILURE (Some (-1, -1)) sudoku_board poss)
  else if check_final_board sudoku_board
  then Return (Outcome FINISH_SUCCESS (Some (10, 10)) sudoku_board poss)
  else if negb (possible_continuation poss)
  then Return (Outcome NOT_FINISH (find_least_options poss) sudoku_board poss)
  else
    let '(sudoku_board', poss', updated) := fill_singles sudoku_board poss in
    if negb updated
    then Return (Outcome NOT_FINISH (find_least_options poss') sudoku_board' poss')
    else Again sudoku_board' poss'.

(** [one_stage], the loop being allowed at most [fuel] iterations. *)
Fixpoint one_stage (fuel : nat) (sudoku_board : board) (poss : possibilities)
  : option outcome :=
  match fuel with
  | O => None
  | S fuel' =>
      match one_stage_body sudoku_board poss with
      | Return o => Some o
      | Again sudoku_board' poss' => one_stage fuel' sudoku_board' poss'
      end
  end.

(** ** The interactive loop [fill_board]

    The control points of [fill_board] are the states of a session: the
    head of the outer [while], the [input()] call of the inner [while],
    and the return.  A line typed by the user is [Some n] when [int]
    parses it and [None] when it raises [ValueError]. *)
Inductive session : Type :=
| Running (sudoku_board : board) (poss : possibilities)
| Choosing (sudoku_board : board) (poss : possibilities)
           (r c : nat) (cell_options : list Z)
| Stopped (s : state) (sudoku_board : board)
| Raised.

(** From the head of the outer loop to the next control point. *)
Definition resume (fuel : nat) (sudoku_board : board) (poss : possibilities)
  : option session :=
  match one_stage fuel sudoku_board poss with
  | None => None
  | Some o =>
      match out_state o, out_loc o with
      | NOT_FINISH, Some (zr, zc) =>
          let r := Z.to_nat zr in
          let c := Z.to_nat zc in
          match entry (out_poss o) r c with
          | Some cell_options =>
              Some (Choosing (assign (out_board o) r c 0) (out_poss o) r c cell_options)
          | None => Some Raised
          end
      | NOT_FINISH, None => Some (Running (out_board o) (out_poss o))
      | s, _ => Some (Stopped s (out_board o))
      end
  end.

(** One line read at the prompt. *)
Definition reply (sudoku_board : board) (poss : possibilities) (r c : nat)
           (cell_options : list Z) (line : option Z) : session :=
  match line with
  | None => Choosing sudoku_board poss r c cell_options
  | Some choice =>
      if negb (mem choice cell_options)
      then Choosing sudoku_board poss r c cell_options
      else
        let sudoku_board' := assign sudoku_board r c choice in
        Running sudoku_board' (possible_digits sudoku_board')
  end.

(** [fill_board] over a script of typed lines; [fuel] bounds the number of
    control points passed and is handed to every [one_stage] call. *)
Fixpoint drive (fuel : nat) (s : session) (lines : list (option Z))
  : option (state * board) :=
  match fuel with
  | O => None
  | S fuel' =>
      match s with
      | Running sudoku_board poss =>
          match resume (S fuel') sudoku_board poss with
          | Some s' => drive fuel' s' lines
          | None => None
          end
      | Choosing sudoku_board poss r c cell_options =>
          match lines with
          | [] => None
          | line :: lines' =>
              drive fuel' (reply sudoku_board poss r c cell_options line) lines'
          end
      | Stopped st sudoku_board => Some (st, sudoku_board)
      | Raised => None
      end
  end.

Definition fill_board (fuel : nat) (sudoku_board : board) (poss : possibilities)
           (lines : list (option Z)) : option (state * board) :=
  drive fuel (Running sudoku_board poss) lines.

(** ** Random boards

    The pseudo-random generator is a parameter: [rand k] is the [k]-th raw
    number it yields, and each call of the [random] module consumes one of
    them.  [random.randrange(lo, hi)] may return any integer of
    [lo .. hi - 1] and [random.choice(l)] any element of [l]; reducing the
    raw number modulo the size of the range reaches each of them. *)

(** [random.randrange(lo, hi)] on the [k]-th raw number. *)
Definition randrange (rand : nat -> nat) (k lo hi : nat) : nat :=
  (lo + rand k mod (hi - lo))%nat.

(** [random.choice(opts)] on the [k]-th raw number. *)
Definition choice (rand : nat -> nat) (k : nat) (opts : list Z) : Z :=
  opts !!! (rand k mod length opts)%nat.

(** The [while filled < N and positions] loop of [create_random_board];
    [k] counts the raw numbers consumed so far and [fuel] bounds the
    iterations. *)
Fixpoint random_fill (fuel : nat) (rand : nat -> nat) (k N filled : nat)
         (positions : list (nat * nat)) (sudoku_board : board) : option board :=
  if negb ((filled <? N)%nat && negb (length positions =? 0)%nat)
  then Some sudoku_board
  else
    match fuel with
    | O => None
    | S fuel' =>
        let idx := randrange rand k 0 (length positions) in
        let '(r, c) := positions !!! idx in
        let positions' := delete idx positions in
        if cell sudoku_board r c =? -1
        then
          let opts := options sudoku_board (r, c) in
          if negb (length opts =? 0)%nat
          then random_fill fuel' rand (k + 2) N (filled + 1) positions'
                           (assign sudoku_board r c (choice rand (k + 1) opts))
          else random_fill fuel' rand (k + 1) N filled positions' sudoku_board
        else random_fill fuel' rand (k + 1) N filled positions' sudoku_board
    end.

(** [create_random_board]; every iteration pops a position, so the 81
    positions bound the iterations. *)
Definition create_random_board (rand : nat -> nat) (sudoku_board : board)
  : option board :=
  let N := randrange rand 0 10 20 in
  let positions :=
    flat_map (fun r => map (fun c => (r, c)) (indices 0 9)) (indices 0 9) in
  random_fill (length positions) rand 1 N 0 positions sudoku_board.

(** ** Rendering

    [print_board] prints lines to the console; the model returns them in
    order.  [print_board_to_file] opens the file in append mode and writes
    text; the model maps the old content of the file to the new one. *)

(** [s * n] on strings. *)
Fixpoint string_times (s : string) (n : nat) : string :=
  match n with
  | O => EmptyString
  | S n' => (s ++ string_times s n')%string
  end.

(** The line feed. *)
Definition newline : string := String "010"%char EmptyString.

(** ["%d" % n] and [f"{n}"] on an integer: its decimal digits, with a
    minus sign when negative. *)
Definition show_int (n : Z) : string := NilZero.string_of_int (Z.to_int n).

(** [" %d " % n if n != -1 else "   "]. *)
Definition show_cell (n : Z) : string :=
  if negb (n =? -1) then (" " ++ show_int n ++ " ")%string else "   "%string.

(** ["+---" * 9 + "+"]. *)
Definition separator : string := (string_times "+---" 9 ++ "+")%string.

(** ["|" + "|".join(...) + "|"]. *)
Definition show_row (row : list Z) : string :=
  ("|" ++ String.concat "|" (map show_cell row) ++ "|")%string.

(** The body of [for r, row in enumerate(sudoku_board)] in [print_board],
    from row number [r] on. *)
Fixpoint print_rows (r : nat) (rows : board) : list string :=
  match rows with
  | [] => []
  | row :: rest =>
      show_row row
      :: (if ((r + 1) mod 3 =? 0)%nat then [separator] else [])
      ++ print_rows (S r) rest
  end.

Definition print_board (sudoku_board : board) : list string :=
  separator :: print_rows 0 sudoku_board.

(** The same loop in [print_board_to_file], writing to the file. *)
Fixpoint write_rows (r : nat) (rows : board) (f : string) : string :=
  match rows with
  | [] => f
  | row :: rest =>
      let f1 := (f ++ (show_row row ++ newline))%string in
      let f2 := if ((r + 1) mod 3 =? 0)%nat
                then (f1 ++ (separator ++ newline))%string else f1 in
      write_rows (S r) rest f2
  end.

Definition print_board_to_file (sudoku_board : board) (file : string) : string :=
  write_rows 0 sudoku_board (file ++ (separator ++ newline))%string.

(** ** Boards used in the examples *)

(** The empty cell, written [E] in the board literals. *)
Definition E : Z := -1.

(** All 81 cells empty. *)
Definition empty_board : board := repeat (repeat (-1) 9) 9.

(** Two 9s next to each other in the first row, nothing else. *)
Definition two_nines_board : board :=
  [ [9; 9; E; E; E; E; E; E; E];
    [E; E; E; E; E; E; E; E; E];
    [E; E; E; E; E; E; E; E; E];
    [E; E; E; E; E; E; E; E; E];
    [E; E; E; E; E; E; E; E; E];
    [E; E; E; E; E; E; E; E; E];
    [E; E; E; E; E; E; E; E; E];
    [E; E; E; E; E; E; E; E; E];
    [E; E; E; E; E; E; E; E; E] ].

(** Cell (0, 8) has the single candidate 2 (the row lacks 1 and 2, the
    column holds 1); cell (0, 7) has the candidates 1 and 2. *)
Definition stale_board : board :=
  [ [3; 4; 5; 6; 7; 8; 9; E; E];
    [E; E; E; E; E; E; E; E; E];
    [E; E; E; E; E; E; E; E; E];
    [E; E; E; E; E; E; E; E; 1];
    [E; E; E; E; E; E; E; E; E];
    [E; E; E; E; E; E; E; E; E];
    [E; E; E; E; E; E; E; E; E];
    [E; E; E; E; E; E; E; E; E];
    [E; E; E; E; E; E; E; E; E] ].

(** A solved grid with its first cell taken out. *)
Definition one_open_board : board :=
  [ [E; 3; 4; 6; 7; 8; 9; 1; 2];
    [6; 7; 2; 1; 9; 5; 3; 4; 8];
    [1; 9; 8; 3; 4; 2; 5; 6; 7];
    [8; 5; 9; 7; 6; 1; 4; 2; 3];
    [4; 2; 6; 8; 5; 3; 7; 9; 1];
    [7; 1; 3; 9; 2; 4; 8; 5; 6];
    [9; 6; 1; 5; 3; 7; 2; 8; 4];
    [2; 8; 7; 4; 1; 9; 6; 3; 5];
    [3; 4; 5; 2; 8; 6; 1; 7; 9] ].

(** ** Specification vocabulary

    The notions the specification speaks of, stated on the cells of the
    grid and independently of the functions above. *)

(** Digit [d] occurs neither in row [r], nor in column [c], nor in the
    3x3 box of the cell [(r, c)]. *)
Definition absent (b : board) (r c : nat) (d : Z) : Prop :=
  (forall j, (j < 9)%nat -> cell b r j <> d) /\
  (forall i, (i < 9)%nat -> cell b i c <> d) /\
  (forall i j, (i < 9)%nat -> (j < 9)%nat ->
               (i / 3 = r / 3)%nat -> (j / 3 = c / 3)%nat -> cell b i j <> d).

(** The coordinates in the order in which the double loops
    [for r in range(9): for c in range(9):] visit them. *)
Definition scan_order : list (nat * nat) :=
  flat_map (fun r => map (fun c => (r, c)) (indices 0 9)) (indices 0 9).

(** [x] is visited strictly before [y] by a row-major scan. *)
Definition row_major_lt (x y : nat * nat) : Prop :=
  (fst x < fst y)%nat \/ (fst x = fst y /\ (snd x < snd y)%nat).

(** [x] is visited no later than [y] by a row-major scan. *)
Definition row_major_le (x y : nat * nat) : Prop :=
  (fst x < fst y)%nat \/ (fst x = fst y /\ (snd x <= snd y)%nat).

(** What the filling pass leaves in a candidate entry ... *)
Definition cleared (o : candidates) : candidates :=
  if has_len 1 o then None else o.

(** ... and in the board cell under it, [v] being the value before. *)
Definition filled (o : candidates) (v : Z) : Z :=
  match o with
  | Some [x] => x
  | _ => v
  end.

(** What the state returned by an iteration tells about the grids. *)
Definition terminal_ok (o : outcome) : Prop :=
  match out_state o with
  | FINISH_SUCCESS =>
      is_board_failure (out_board o) = false /\
      is_out_of_options (out_poss o) = false /\
      check_final_board (out_board o) = true
  | FINISH_FAILURE =>
      is_board_failure (out_board o) = true \/ is_out_of_options (out_poss o) = true
  | NOT_FINISH =>
      is_board_failure (out_board o) = false /\
      is_out_of_options (out_poss o) = false /\
      check_final_board (out_board o) = false
  end.

(** Two cells of one row, of one column or of one 3x3 box. *)
Definition same_unit (x y : nat * nat) : Prop :=
  fst x = fst y \/ snd x = snd y \/
  ((fst x / 3)%nat = (fst y / 3)%nat /\ (snd x / 3)%nat = (snd y / 3)%nat).

(** Some row, column or box holds the same value in two of its non-empty
    cells. *)
Definition duplicated (b : board) : Prop :=
  exists r1 c1 r2 c2,
    (r1 < 9)%nat /\ (c1 < 9)%nat /\ (r2 < 9)%nat /\ (c2 < 9)%nat /\
    (r1, c1) <> (r2, c2) /\ same_unit (r1, c1) (r2, c2) /\
    cell b r1 c1 = cell b r2 c2 /\ cell b r1 c1 <> -1.

(** A line typed at the prompt that the inner loop of [fill_board] does
    not accept: [int] failed on it, or the number is not offered. *)
Definition rejected (cell_options : list Z) (line : option Z) : Prop :=
  match line with
  | None => True
  | Some choice => ~ In choice cell_options
  end.

(** The reading of the specification under which no cell at all, the
    awaiting one included, is written between the step that asks for a
    choice and the first accepted digit: after a rejected line the board is
    still the one the step returned. *)
Definition untouched_until_choice : Prop :=
  forall fuel (b : board) o b1 p1 r c cell_options line,
    shape9 b ->
    one_stage fuel b (possible_digits b) = Some o ->
    resume fuel b (possible_digits b) = Some (Choosing b1 p1 r c cell_options) ->
    rejected cell_options line ->
    exists p2 r2 c2 opts2,
      reply b1 p1 r c cell_options line = Choosing (out_board o) p2 r2 c2 opts2.

(** A complete grid in which the digit 9 stands twice in the first row
    (and in the first column and the first box). *)
Definition nine_twice_board : board :=
  [ [9; 3; 4; 6; 7; 8; 9; 1; 2];
    [6; 7; 2; 1; 9; 5; 3; 4; 8];
    [1; 9; 8; 3; 4; 2; 5; 6; 7];
    [8; 5; 9; 7; 6; 1; 4; 2; 3];
    [4; 2; 6; 8; 5; 3; 7; 9; 1];
    [7; 1; 3; 9; 2; 4; 8; 5; 6];
    [9; 6; 1; 5; 3; 7; 2; 8; 4];
    [2; 8; 7; 4; 1; 9; 6; 3; 5];
    [3; 4; 5; 2; 8; 6; 1; 7; 9] ].

(** The coordinates of the cells of a row, of a column and of a 3x3
    square, in the order in which the source collects their values. *)
Definition row_cells (r : nat) : list (nat * nat) :=
  map (fun j => (r, j)) (indices 0 9).

Definition column_cells (c : nat) : list (nat * nat) :=
  map (fun i => (i, c)) (indices 0 9).

Definition square_cells (r0 c0 : nat) : list (nat * nat) :=
  flat_map (fun i => map (fun j => (i, j)) (indices c0 (c0 + 3)))
           (indices r0 (r0 + 3)).

(** The values a board holds at a list of coordinates. *)
Definition values (b : board) (cells : list (nat * nat)) : list Z :=
  map (fun rc => cell b (fst rc) (snd rc)) cells.

(** What [is_board_failure] does detect: a value between 0 and 8 that
    stands in two cells of one row, column or box. *)
Definition duplicated_below_nine (b : board) : Prop :=
  exists r1 c1 r2 c2,
    (r1 < 9)%nat /\ (c1 < 9)%nat /\ (r2 < 9)%nat /\ (c2 < 9)%nat /\
    (r1, c1) <> (r2, c2) /\ same_unit (r1, c1) (r2, c2) /\
    cell b r1 c1 = cell b r2 c2 /\ 0 <= cell b r1 c1 <= 8.

(** What an iteration of [one_stage] returns when it returns before the
    filling pass. *)
Definition verdict (b : board) (p : possibilities) : outcome :=
  if is_board_failure b || is_out_of_options p
  then Outcome FINISH_FAILURE (Some (-1, -1)) b p
  else if check_final_board b
  then Outcome FINISH_SUCCESS (Some (10, 10)) b p
  else Outcome NOT_FINISH (find_least_options p) b p.

(** The first iteration returns: the board fails, or is complete, or no
    cell has a single candidate. *)
Definition stops (b : board) (p : possibilities) : bool :=
  is_board_failure b || is_out_of_options p || check_final_board b
  || negb (possible_continuation p).

(** Board [b] still shows every clue of board [b0]. *)
Definition keeps_clues (b0 b : board) : Prop :=
  forall r c, (r < 9)%nat -> (c < 9)%nat -> cell b0 r c <> -1 -> cell b r c = cell b0 r c.

(** What holds at every control point of [fill_board] started on [b0]
    with the candidates of [b0]. *)
Definition session_keeps (b0 : board) (s : session) : Prop :=
  match s with
  | Running b p => shape9 b /\ p = possible_digits b /\ keeps_clues b0 b
  | Choosing b p r c opts =>
      shape9 b /\ keeps_clues b0 b /\ (r < 9)%nat /\ (c < 9)%nat /\ cell b0 r c = -1
  | Stopped st b => shape9 b /\ keeps_clues b0 b
  | Raised => True
  end.

(** What [fill_board] may return. *)
Definition final_ok (st : state) (b : board) : Prop :=
  st <> NOT_FINISH /\
  (st = FINISH_SUCCESS -> check_final_board b = true /\ is_board_failure b = false).

(** The number of filled cells of a board. *)
Definition filled_cells (b : board) : nat :=
  length (List.filter (fun x => negb (x =? -1)) (concat b)).

(** Board [b'] is board [b] with some open cells filled with digits. *)
Definition fills_open_cells (b b' : board) : Prop :=
  forall r c, (r < 9)%nat -> (c < 9)%nat ->
              cell b' r c = cell b r c \/ (cell b r c = -1 /\ 1 <= cell b' r c <= 9).

(** The text of a list of lines, each followed by a line feed. *)
Fixpoint unlines (lines : list string) : string :=
  match lines with
  | [] => EmptyString
  | l :: rest => (l ++ newline ++ unlines rest)%string
  end.

(** * Properties *)

(** ** Reading and writing the grids *)

Section Grid.
Context {A : Type} `{Inhabited A}.
Implicit Types (g : list (list A)).

Lemma shape9_row g r :
  shape9 g -> (r < 9)%nat -> length (g !!! r) = 9%nat.
Proof.
  intros [Hlen Hrows] Hr.
  rewrite Forall_forall in Hrows. apply Hrows.
  apply list_elem_of_lookup_total_2. lia.
Qed.

Lemma assign_shape9 g r c v : shape9 g -> shape9 (assign g r c v).
Proof.
  intros Hg. pose proof Hg as [Hlen Hrows]. unfold assign.
  destruct (decide (r < 9)%nat) as [Hr | Hr].
  - split.
    + rewrite length_insert. exact Hlen.
    + apply Forall_insert; [exact Hrows |].
      rewrite length_insert. apply shape9_row; assumption.
  - rewrite list_insert_ge by lia. exact Hg.
Qed.

(** Reading back after [grid[r][c] = v]. *)
Lemma assign_same g r c v :
  shape9 g -> (r < 9)%nat -> (c < 9)%nat ->
  (assign g r c v !!! r) !!! c = v.
Proof.
  intros Hg Hr Hc. unfold assign.
  rewrite list_lookup_total_insert_eq by (destruct Hg; lia).
  rewrite list_lookup_total_insert_eq; [reflexivity |].
  rewrite shape9_row by assumption. exact Hc.
Qed.

Lemma assign_other g r c v r' c' :
  (r', c') <> (r, c) ->
  (assign g r c v !!! r') !!! c' = (g !!! r') !!! c'.
Proof.
  intros Hne. unfold assign.
  destruct (decide (r = r')) as [-> | Hr].
  - destruct (decide (r' < length g)%nat) as [Hlt | Hge].
    + rewrite list_lookup_total_insert_eq by exact Hlt.
      rewrite list_lookup_total_insert_ne; [reflexivity | congruence].
    + rewrite list_insert_ge by lia. reflexivity.
  - rewrite list_lookup_total_insert_ne by exact Hr. reflexivity.
Qed.
(** The cells met by [for row in grid for x in row]. *)
Lemma concat_lookup g (x : A) :
  shape9 g ->
  In x (concat g) <->
  exists r c, (r < 9)%nat /\ (c < 9)%nat /\ (g !!! r) !!! c = x.
Proof.
  intros Hg. rewrite in_concat. split.
  - intros (row & Hrow & Hx).
    apply list_elem_of_In, list_elem_of_lookup_total in Hrow as (r & Hr & <-).
    apply list_elem_of_In, list_elem_of_lookup_total in Hx as (c & Hc & <-).
    destruct Hg as [Hlen Hrows]. rewrite Hlen in Hr.
    rewrite (shape9_row g r (conj Hlen Hrows) Hr) in Hc.
    exists r, c. split; [exact Hr |]. split; [exact Hc | reflexivity].
  - intros (r & c & Hr & Hc & <-). exists (g !!! r). split.
    + apply list_elem_of_In, list_elem_of_lookup_total_2. destruct Hg; lia.
    + apply list_elem_of_In, list_elem_of_lookup_total_2.
      rewrite shape9_row by assumption. exact Hc.
Qed.
(** Two 9x9 grids with the same cells are the same grid. *)
Lemma grid_ext g1 g2 :
  shape9 g1 -> shape9 g2 ->
  (forall r c, (r < 9)%nat -> (c < 9)%nat -> (g1 !!! r) !!! c = (g2 !!! r) !!! c) ->
  g1 = g2.
Proof.
  intros Hg1 Hg2 Hcells.
  apply (list_eq_same_length _ _ 9); [destruct Hg2; assumption | destruct Hg1; assumption |].
  intros r row1 row2 Hr Hrow1 Hrow2.
  apply list_lookup_total_correct in Hrow1, Hrow2. subst row1 row2.
  apply (list_eq_same_length _ _ 9); [apply shape9_row; assumption.. |].
  intros c x1 x2 Hc Hx1 Hx2.
  apply list_lookup_total_correct in Hx1, Hx2. subst x1 x2.
  apply Hcells; assumption.
Qed.
End Grid.

Lemma empty_board_shape9 : shape9 empty_board.
Proof. split; [reflexivity | repeat constructor]. Qed.

(** ** Candidate computation *)

Lemma mem_In x l : mem x l = true <-> In x l.
Proof.
  unfold mem. rewrite existsb_exists. split.
  - intros (y & Hy & Heq). apply Z.eqb_eq in Heq. subst y. exact Hy.
  - intros Hx. exists x. split; [exact Hx | apply Z.eqb_refl].
Qed.

Lemma mem_false x l : mem x l = false <-> ~ In x l.
Proof.
  rewrite <- mem_In. destruct (mem x l); split; congruence.
Qed.

Lemma option_in_part_In d row :
  In d (option_in_part row) <-> 1 <= d <= 9 /\ ~ In d row.
Proof.
  unfold option_in_part. rewrite filter_In, negb_true_iff, mem_false.
  assert (In d (range 1 10) <-> 1 <= d <= 9) as ->; [| reflexivity].
  cbn. lia.
Qed.

Lemma row_In (b : board) r d :
  shape9 b -> (r < 9)%nat ->
  In d (b !!! r) <-> exists j, (j < 9)%nat /\ cell b r j = d.
Proof.
  intros Hb Hr. rewrite <- list_elem_of_In, list_elem_of_lookup_total.
  rewrite shape9_row by assumption. reflexivity.
Qed.

Lemma column_In (b : board) c d :
  In d (column b c) <-> exists i, (i < 9)%nat /\ cell b i c = d.
Proof.
  unfold column, indices. rewrite in_map_iff. split.
  - intros (i & Hi & Hin). apply in_seq in Hin. exists i. split; [lia | exact Hi].
  - intros (i & Hi & Hc). exists i. split; [exact Hc | apply in_seq; lia].
Qed.

Lemma square_In (b : board) r0 c0 d :
  In d (square b r0 c0) <->
  exists i j, (r0 <= i < r0 + 3)%nat /\ (c0 <= j < c0 + 3)%nat /\ cell b i j = d.
Proof.
  unfold square, indices. rewrite in_flat_map. split.
  - intros (i & Hi & Hin). apply in_map_iff in Hin as (j & Hj & Hin).
    apply in_seq in Hi. apply in_seq in Hin. exists i, j. split; [lia | split; [lia | exact Hj]].
  - intros (i & j & Hi & Hj & Hc). exists i. split; [apply in_seq; lia |].
    apply in_map_iff. exists j. split; [exact Hc | apply in_seq; lia].
Qed.

Lemma same_block i r : (3 * (r / 3) <= i < 3 * (r / 3) + 3)%nat <-> (i / 3 = r / 3)%nat.
Proof.
  pose proof (Nat.div_mod_eq i 3) as Hi.
  pose proof (Nat.mod_upper_bound i 3 ltac:(lia)) as Hm.
  lia.
Qed.

Lemma options_filled (b : board) r c :
  cell b r c <> -1 -> options b (r, c) = [].
Proof.
  intros Hne. unfold options.
  destruct (Z.eqb_spec (cell b r c) (-1)) as [Heq | _]; [contradiction | reflexivity].
Qed.

Lemma options_open_In (b : board) r c d :
  shape9 b -> (r < 9)%nat -> (c < 9)%nat -> cell b r c = -1 ->
  In d (options b (r, c)) <-> 1 <= d <= 9 /\ absent b r c d.
Proof.
  intros Hb Hr Hc Hopen. unfold options. rewrite Hopen.
  change (negb (-1 =? -1)) with false. cbv iota.
  rewrite filter_In, andb_true_iff, !mem_In, !option_in_part_In.
  rewrite row_In, column_In, square_In by assumption.
  unfold absent. split.
  - intros ((Hd & Hsq) & (_ & Hrow) & (_ & Hcol)). split; [exact Hd |].
    split; [| split].
    + intros j Hj Heq. apply Hrow. eauto.
    + intros i Hi Heq. apply Hcol. eauto.
    + intros i j Hi Hj Hir Hjc Heq. apply Hsq. exists i, j.
      rewrite !same_block. auto.
  - intros (Hd & Hrow & Hcol & Hsq).
    split; [split; [exact Hd |] | split; split; try exact Hd].
    + intros (i & j & Hi & Hj & Heq).
      rewrite same_block in Hi, Hj.
      assert (i < 9 /\ j < 9)%nat as [Hi9 Hj9].
      { pose proof (Nat.div_mod_eq i 3). pose proof (Nat.div_mod_eq j 3).
        pose proof (Nat.div_mod_eq r 3). pose proof (Nat.div_mod_eq c 3).
        pose proof (Nat.mod_upper_bound i 3 ltac:(lia)).
        pose proof (Nat.mod_upper_bound j 3 ltac:(lia)).
        lia. }
      exact (Hsq i j Hi9 Hj9 Hi Hj Heq).
    + intros (j & Hj & Heq). exact (Hrow j Hj Heq).
    + intros (i & Hi & Heq). exact (Hcol i Hi Heq).
Qed.

Lemma option_in_part_NoDup row : List.NoDup (option_in_part row).
Proof.
  unfold option_in_part, range. apply List.NoDup_filter.
  apply Finite.Injective_map_NoDup; [intros x y; lia | apply List.seq_NoDup].
Qed.

Lemma options_NoDup (b : board) loc : List.NoDup (options b loc).
Proof.
  destruct loc as [r c]. unfold options.
  destruct (negb (cell b r c =? -1)); [constructor |].
  apply List.NoDup_filter, option_in_part_NoDup.
Qed.

Lemma map_indices_lookup {B : Type} `{Inhabited B} (f : nat -> B) lo hi i :
  (i < hi - lo)%nat -> map f (indices lo hi) !!! i = f (lo + i)%nat.
Proof.
  intros Hi. unfold indices.
  change (map f (seq lo (hi - lo))) with (f <$> seq lo (hi - lo)).
  rewrite (list_lookup_total_fmap f (Inhabited0 := _)) by (rewrite length_seq; exact Hi).
  rewrite lookup_total_seq_lt by exact Hi. reflexivity.
Qed.

Lemma entry_possible_digits (b : board) r c :
  (r < 9)%nat -> (c < 9)%nat ->
  entry (possible_digits b) r c =
  if cell b r c =? -1 then Some (options b (r, c)) else None.
Proof.
  intros Hr Hc. unfold entry, possible_digits.
  rewrite !map_indices_lookup by lia. reflexivity.
Qed.

Lemma possible_digits_shape9 (b : board) : shape9 (possible_digits b).
Proof.
  unfold possible_digits, indices. split.
  - rewrite length_map, length_seq. reflexivity.
  - apply Forall_forall. intros row Hin.
    apply list_elem_of_In, in_map_iff in Hin as (r & <- & _).
    rewrite length_map, length_seq. reflexivity.
Qed.

(** C7.  For a filled cell [options] returns the empty list; for an open
    cell it returns, without repetition, exactly the digits of 1..9 that
    occur neither in the cell's row, nor in its column, nor in its 3x3
    box. *)
Theorem options_exact (b : board) (r c : nat) :
  shape9 b -> (r < 9)%nat -> (c < 9)%nat ->
  (cell b r c <> -1 -> options b (r, c) = []) /\
  (cell b r c = -1 ->
   List.NoDup (options b (r, c)) /\
   forall d, In d (options b (r, c)) <-> 1 <= d <= 9 /\ absent b r c d).
Proof.
  intros Hb Hr Hc. split.
  - apply options_filled.
  - intros Hopen. split; [apply options_NoDup |].
    intros d. apply options_open_In; assumption.
Qed.

(** ** Monotonicity of the candidates *)

Lemma absent_assign (b : board) r c v r' c' d :
  shape9 b -> (r < 9)%nat -> (c < 9)%nat ->
  cell b r c = -1 -> 1 <= d ->
  absent (assign b r c v) r' c' d -> absent b r' c' d.
Proof.
  intros Hb Hr Hc Hopen Hd (Hrow & Hcol & Hsq).
  assert (forall i j, cell (assign b r c v) i j <> d -> cell b i j <> d) as Hback.
  { intros i j Hne. destruct (decide ((i, j) = (r, c))) as [Heq | Hdiff].
    - inversion Heq; subst. rewrite Hopen. lia.
    - unfold cell in *. rewrite assign_other in Hne by exact Hdiff. exact Hne. }
  split; [| split].
  - intros j Hj. apply Hback, Hrow, Hj.
  - intros i Hi. apply Hback, Hcol, Hi.
  - intros i j Hi Hj Hir Hjc. apply Hback, Hsq; assumption.
Qed.

(** C8.  Writing any value into an open cell can only shrink the candidate
    list of every other open cell: whatever [options] (and hence
    [possible_digits]) offers there on the new board it offered on the old
    one. *)
Theorem options_monotone (b : board) (r c : nat) (v : Z) (r' c' : nat) :
  shape9 b -> (r < 9)%nat -> (c < 9)%nat -> (r' < 9)%nat -> (c' < 9)%nat ->
  cell b r c = -1 ->
  (r', c') <> (r, c) ->
  cell b r' c' = -1 ->
  cell (assign b r c v) r' c' = -1 /\
  (forall d, In d (options (assign b r c v) (r', c')) -> In d (options b (r', c'))) /\
  entry (possible_digits (assign b r c v)) r' c' = Some (options (assign b r c v) (r', c')) /\
  entry (possible_digits b) r' c' = Some (options b (r', c')).
Proof.
  intros Hb Hr Hc Hr' Hc' Hopen Hne Hopen'.
  assert (cell (assign b r c v) r' c' = -1) as Hopen''.
  { unfold cell. rewrite assign_other by exact Hne. exact Hopen'. }
  split; [exact Hopen'' |]. split.
  - intros d Hin.
    apply options_open_In in Hin as [Hd Habs];
      [| apply assign_shape9, Hb | assumption..].
    apply options_open_In; [assumption.. |].
    split; [exact Hd |]. apply (absent_assign b r c v); [assumption.. | lia | exact Habs].
  - rewrite !entry_possible_digits by assumption.
    rewrite Hopen'', Hopen'. split; reflexivity.
Qed.

(** ** The double loops as one scan *)

Lemma fold_left_nested {S : Type} (f : S -> nat * nat -> S) (cs rs : list nat) (a : S) :
  fold_left (fun acc r => fold_left (fun acc c => f acc (r, c)) cs acc) rs a =
  fold_left f (flat_map (fun r => map (fun c => (r, c)) cs) rs) a.
Proof.
  revert a. induction rs as [| r rs IH]; intros a; [reflexivity |].
  cbn [fold_left flat_map]. rewrite fold_left_app, <- IH. f_equal.
  clear. revert a. induction cs as [| c cs IHc]; intros a; [reflexivity |].
  cbn [fold_left map]. apply IHc.
Qed.

Lemma scan_order_In r c : In (r, c) scan_order <-> (r < 9)%nat /\ (c < 9)%nat.
Proof.
  unfold scan_order, indices. rewrite in_flat_map. split.
  - intros (r' & Hr & Hin). apply in_map_iff in Hin as (c' & Heq & Hc).
    inversion Heq; subst. apply in_seq in Hr, Hc. lia.
  - intros [Hr Hc]. exists r. split; [apply in_seq; lia |].
    apply in_map_iff. exists c. split; [reflexivity | apply in_seq; lia].
Qed.

Lemma sorted_map_seq {B : Type} (R : B -> B -> Prop) (f : nat -> B) :
  (forall i j, (i < j)%nat -> R (f i) (f j)) ->
  forall n lo, StronglySorted R (map f (seq lo n)).
Proof.
  intros Hmono. induction n as [| n IH]; intros lo; cbn [seq map].
  - constructor.
  - constructor; [apply IH |].
    apply List.Forall_forall. intros y Hy.
    apply in_map_iff in Hy as (j & <- & Hj). apply in_seq in Hj.
    apply Hmono. lia.
Qed.

Lemma scan_order_sorted : StronglySorted row_major_lt scan_order.
Proof.
  change scan_order
    with (map (fun i => (i / 9, i mod 9)%nat) (seq 0 81)).
  apply sorted_map_seq. intros i j Hij. unfold row_major_lt. cbn [fst snd].
  pose proof (Nat.div_mod_eq i 9). pose proof (Nat.div_mod_eq j 9).
  pose proof (Nat.mod_upper_bound i 9 ltac:(lia)).
  pose proof (Nat.mod_upper_bound j 9 ltac:(lia)).
  lia.
Qed.

(** ** The branch cell *)

Lemma find_least_options_scan (p : possibilities) :
  find_least_options p = snd (fold_left (least_visit p) scan_order (10%nat, None)).
Proof. unfold find_least_options, scan_order. rewrite fold_left_nested. reflexivity. Qed.

(** The accumulator of the scan after the coordinates [l]: either nothing
    in [l] beat the incoming minimum, or the result is the first cell of
    [l] with the least positive length. *)
Lemma least_scan (p : possibilities) (l : list (nat * nat)) :
  StronglySorted row_major_lt l ->
  forall (m : nat) (loc : option (Z * Z)),
    let res := fold_left (least_visit p) l (m, loc) in
    (res = (m, loc) /\
     forall r c opts, In (r, c) l -> entry p r c = Some opts ->
                      (0 < length opts)%nat -> (m <= length opts)%nat)
    \/
    (exists r c opts,
        In (r, c) l /\ res = (length opts, Some (Z.of_nat r, Z.of_nat c)) /\
        entry p r c = Some opts /\ (0 < length opts < m)%nat /\
        forall r1 c1 opts1, In (r1, c1) l -> entry p r1 c1 = Some opts1 ->
                            (0 < length opts1)%nat ->
                            (length opts <= length opts1)%nat /\
                            (length opts1 = length opts -> row_major_le (r, c) (r1, c1))).
Proof.
  induction 1 as [| [r0 c0] l Hsorted IH Hfirst]; intros m loc res.
  - left. split; [reflexivity |]. intros r c opts [].
  - subst res. cbn [fold_left]. rewrite List.Forall_forall in Hfirst.
    set (acc := least_visit p (m, loc) (r0, c0)).
    destruct (entry p r0 c0) as [opts0 |] eqn:Hentry.
    1: destruct ((0 <? length opts0)%nat && (length opts0 <? m)%nat) eqn:Htest.
    all: assert (Hacc := eq_refl : acc = least_visit p (m, loc) (r0, c0));
      unfold least_visit in Hacc; rewrite Hentry, ?Htest in Hacc;
      rewrite Hacc; clear acc Hacc.
    + (* the head beats the incoming minimum *)
      apply andb_true_iff in Htest as [Hpos Hlt].
      apply Nat.ltb_lt in Hpos, Hlt.
      right.
      destruct (IH (length opts0) (Some (Z.of_nat r0, Z.of_nat c0)))
        as [[Heq Hall] | (r & c & opts & Hin & Heq & He & Hlen & Hall)].
      * exists r0, c0, opts0. split; [left; reflexivity |].
        split; [exact Heq |]. split; [exact Hentry |]. split; [lia |].
        intros r1 c1 opts1 [Hhead | Htail] He1 Hpos1.
        -- inversion Hhead; subst. rewrite Hentry in He1. inversion He1; subst.
           split; [lia |]. intros _. right. cbn. lia.
        -- split; [eapply Hall; eassumption |].
           intros _. specialize (Hfirst _ Htail).
           destruct Hfirst as [Hf | [Hf1 Hf2]]; [left; exact Hf | right; cbn in *; lia].
      * exists r, c, opts. split; [right; exact Hin |].
        split; [exact Heq |]. split; [exact He |]. split; [lia |].
        intros r1 c1 opts1 [Hhead | Htail] He1 Hpos1.
        -- inversion Hhead; subst. rewrite Hentry in He1. inversion He1; subst.
           split; lia.
        -- eapply Hall; eassumption.
    + (* the head does not beat it *)
      apply andb_false_iff in Htest.
      assert ((0 < length opts0)%nat -> (m <= length opts0)%nat) as Hhead0.
      { intros Hpos. destruct Htest as [Ht | Ht].
        - apply Nat.ltb_ge in Ht. lia.
        - apply Nat.ltb_ge in Ht. exact Ht. }
      destruct (IH m loc)
        as [[Heq Hall] | (r & c & opts & Hin & Heq & He & Hlen & Hall)].
      * left. split; [exact Heq |].
        intros r1 c1 opts1 [Hhead | Htail] He1 Hpos1.
        -- inversion Hhead; subst. rewrite Hentry in He1. inversion He1; subst.
           apply Hhead0, Hpos1.
        -- eapply Hall; eassumption.
      * right. exists r, c, opts. split; [right; exact Hin |].
        split; [exact Heq |]. split; [exact He |]. split; [exact Hlen |].
        intros r1 c1 opts1 [Hhead | Htail] He1 Hpos1.
        -- inversion Hhead; subst. rewrite Hentry in He1. inversion He1; subst.
           specialize (Hhead0 Hpos1). split; lia.
        -- eapply Hall; eassumption.
    + (* the head is a filled cell *)
      destruct (IH m loc)
        as [[Heq Hall] | (r & c & opts & Hin & Heq & He & Hlen & Hall)].
      * left. split; [exact Heq |].
        intros r1 c1 opts1 [Hhead | Htail] He1 Hpos1.
        -- inversion Hhead; subst. congruence.
        -- eapply Hall; eassumption.
      * right. exists r, c, opts. split; [right; exact Hin |].
        split; [exact Heq |]. split; [exact He |]. split; [exact Hlen |].
        intros r1 c1 opts1 [Hhead | Htail] He1 Hpos1.
        -- inversion Hhead; subst. congruence.
        -- eapply Hall; eassumption.
Qed.

Lemma one_stage_no_single (b : board) (p : possibilities) (fuel : nat) (o : outcome) :
  possible_continuation p = false ->
  one_stage fuel b p = Some o -> out_state o = NOT_FINISH ->
  o = Outcome NOT_FINISH (find_least_options p) b p.
Proof.
  intros Hnone Hrun Hstate. destruct fuel as [| fuel]; [discriminate |].
  cbn [one_stage] in Hrun. unfold one_stage_body in Hrun. rewrite Hnone in Hrun.
  destruct (is_board_failure b || is_out_of_options p);
    [inversion Hrun; subst; discriminate |].
  destruct (check_final_board b); [inversion Hrun; subst; discriminate |].
  cbn [negb] in Hrun. inversion Hrun. reflexivity.
Qed.

(** C6.  When no cell has a single candidate, the coordinate [one_stage]
    reports with [NOT_FINISH] is the result of [find_least_options]; and
    that result is an open cell whose candidate list has the least positive
    length on the grid, the first such cell in row-major order.  (It is
    [None] only when no open cell has between one and nine candidates.) *)
Theorem branch_cell_least (p : possibilities) :
  (forall b fuel o,
      possible_continuation p = false ->
      one_stage fuel b p = Some o -> out_state o = NOT_FINISH ->
      out_loc o = find_least_options p) /\
  match find_least_options p with
  | None =>
      forall r c opts, (r < 9)%nat -> (c < 9)%nat -> entry p r c = Some opts ->
                       (0 < length opts)%nat -> (10 <= length opts)%nat
  | Some (zr, zc) =>
      exists r c opts,
        zr = Z.of_nat r /\ zc = Z.of_nat c /\ (r < 9)%nat /\ (c < 9)%nat /\
        entry p r c = Some opts /\ (0 < length opts < 10)%nat /\
        forall r1 c1 opts1,
          (r1 < 9)%nat -> (c1 < 9)%nat -> entry p r1 c1 = Some opts1 ->
          (0 < length opts1)%nat ->
          (length opts <= length opts1)%nat /\
          (length opts1 = length opts -> row_major_le (r, c) (r1, c1))
  end.
Proof.
  split.
  - intros b fuel o Hnone Hrun Hstate.
    rewrite (one_stage_no_single b p fuel o Hnone Hrun Hstate). reflexivity.
  - rewrite find_least_options_scan.
    destruct (least_scan p scan_order scan_order_sorted 10%nat None)
      as [[Heq Hall] | (r & c & opts & Hin & Heq & He & Hlen & Hall)];
      rewrite Heq; cbn [snd].
    + intros r c opts Hr Hc. apply Hall, scan_order_In. split; assumption.
    + apply scan_order_In in Hin as [Hr Hc].
      exists r, c, opts. repeat (split; [first [reflexivity | assumption | lia] |]).
      intros r1 c1 opts1 Hr1 Hc1. apply Hall, scan_order_In. split; assumption.
Qed.

Lemma branch_cell_least_witness :
  out_loc (Outcome NOT_FINISH (Some (0, 0)) empty_board (possible_digits empty_board)) =
  find_least_options (possible_digits empty_board).
Proof.
  pose proof (branch_cell_least (possible_digits empty_board)) as [Hstage _].
  apply (Hstage empty_board 1%nat).
  - vm_compute. reflexivity.
  - vm_compute. reflexivity.
  - reflexivity.
Defined.

Lemma options_exact_witness :
  (cell stale_board 0 7 <> -1 -> options stale_board (0%nat, 7%nat) = []) /\
  (cell stale_board 0 7 = -1 ->
   List.NoDup (options stale_board (0%nat, 7%nat)) /\
   forall d, In d (options stale_board (0%nat, 7%nat)) <->
             1 <= d <= 9 /\ absent stale_board 0 7 d).
Proof.
  apply (options_exact stale_board 0 7).
  - split; [reflexivity | repeat constructor].
  - lia.
  - lia.
Defined.

Lemma options_monotone_witness :
  cell (assign stale_board 0 8 2) 0 7 = -1 /\
  (forall d, In d (options (assign stale_board 0 8 2) (0%nat, 7%nat)) ->
             In d (options stale_board (0%nat, 7%nat))) /\
  entry (possible_digits (assign stale_board 0 8 2)) 0 7 =
    Some (options (assign stale_board 0 8 2) (0%nat, 7%nat)) /\
  entry (possible_digits stale_board) 0 7 = Some (options stale_board (0%nat, 7%nat)).
Proof.
  apply (options_monotone stale_board 0 8 2 0 7).
  - split; [reflexivity | repeat constructor].
  - lia.
  - lia.
  - lia.
  - lia.
  - reflexivity.
  - intros Heq. inversion Heq.
  - reflexivity.
Defined.

(** C9.  On the empty board with its freshly computed candidates the step
    returns [NOT_FINISH] at [(0, 0)] in its first iteration, leaving both
    grids as they were, and the candidates offered there are all nine
    digits. *)
Theorem empty_board_first_step (fuel : nat) :
  one_stage (S fuel) empty_board (possible_digits empty_board) =
    Some (Outcome NOT_FINISH (Some (0, 0)) empty_board (possible_digits empty_board)) /\
  entry (possible_digits empty_board) 0 0 = Some [1; 2; 3; 4; 5; 6; 7; 8; 9].
Proof.
  split; [| vm_compute; reflexivity].
  cbn [one_stage].
  assert (one_stage_body empty_board (possible_digits empty_board) =
          Return (Outcome NOT_FINISH (Some (0, 0)) empty_board
                          (possible_digits empty_board))) as ->
      by (vm_compute; reflexivity).
  reflexivity.
Qed.

(** ** The filling pass *)

Lemma has_len_1 (o : candidates) : has_len 1 o = true <-> exists x, o = Some [x].
Proof.
  split.
  - destruct o as [[| x [| y l]] |]; cbn; try discriminate. eauto.
  - intros [x ->]. reflexivity.
Qed.

Lemma filled_not_single (o : candidates) v : has_len 1 o = false -> filled o v = v.
Proof. destruct o as [[| x [| y l]] |]; cbn; congruence. Qed.

Lemma entry_in_range (p : possibilities) r c o :
  shape9 p -> entry p r c = Some o -> (r < 9)%nat /\ (c < 9)%nat.
Proof.
  intros Hp He. unfold entry in He.
  destruct (decide (r < 9)%nat) as [Hr | Hr].
  - split; [exact Hr |].
    destruct (decide (c < 9)%nat) as [Hc | Hc]; [exact Hc |].
    rewrite (list_lookup_total_alt (p !!! r)), lookup_ge_None_2 in He;
      [discriminate | rewrite shape9_row by assumption; lia].
  - rewrite (list_lookup_total_alt p), lookup_ge_None_2 in He by (destruct Hp; lia).
    discriminate.
Qed.

Lemma fill_singles_scan (b : board) (p : possibilities) :
  fill_singles b p = fold_left fill_visit scan_order (b, p, false).
Proof. unfold fill_singles, scan_order. rewrite fold_left_nested. reflexivity. Qed.

(** The pass over the coordinates [l], each visited once: a visited entry
    with a single candidate is cleared and its digit written to the board;
    everything else is left as it was. *)
Lemma fill_scan (l : list (nat * nat)) :
  List.NoDup l ->
  forall (b : board) (p : possibilities) (u : bool),
    shape9 b -> shape9 p ->
    exists b' p' u',
      fold_left fill_visit l (b, p, u) = (b', p', u') /\
      shape9 b' /\ shape9 p' /\
      (forall r c, In (r, c) l ->
                   entry p' r c = cleared (entry p r c) /\
                   cell b' r c = filled (entry p r c) (cell b r c)) /\
      (forall r c, ~ In (r, c) l ->
                   entry p' r c = entry p r c /\ cell b' r c = cell b r c) /\
      u' = u || existsb (fun rc => has_len 1 (entry p (fst rc) (snd rc))) l.
Proof.
  induction 1 as [| [r0 c0] l Hnotin Hnodup IH]; intros b p u Hb Hp.
  - exists b, p, u. cbn [fold_left existsb]. rewrite orb_false_r.
    split; [reflexivity |]. split; [exact Hb |]. split; [exact Hp |].
    split; [intros r c [] |]. split; [| reflexivity].
    intros r c _. split; reflexivity.
  - cbn [fold_left existsb fst snd].
    destruct (has_len 1 (entry p r0 c0)) eqn:Hsingle.
    + (* the head is filled *)
      pose proof Hsingle as Hx. apply has_len_1 in Hx as [x Hx].
      destruct (entry_in_range p r0 c0 _ Hp Hx) as [Hr0 Hc0].
      assert (fill_visit (b, p, u) (r0, c0) =
              (assign b r0 c0 x, assign p r0 c0 None, true)) as ->.
      { unfold fill_visit. rewrite Hx. reflexivity. }
      destruct (IH (assign b r0 c0 x) (assign p r0 c0 None) true)
        as (b' & p' & u' & Hfold & Hb' & Hp' & Hin & Hout & Hu);
        [apply assign_shape9, Hb | apply assign_shape9, Hp |].
      exists b', p', u'. split; [exact Hfold |].
      split; [exact Hb' |]. split; [exact Hp' |]. split; [| split].
      * intros r c [Hhead | Htail].
        -- inversion Hhead; subst r0 c0.
           destruct (Hout r c Hnotin) as [He Hc]. rewrite He, Hc.
           unfold entry, cell. rewrite !assign_same by assumption.
           fold (entry p r c). rewrite Hx. split; reflexivity.
        -- assert ((r, c) <> (r0, c0)) as Hne by (intros Heq; congruence).
           destruct (Hin r c Htail) as [He Hc]. rewrite He, Hc.
           unfold entry, cell. rewrite !assign_other by exact Hne.
           split; reflexivity.
      * intros r c Hnot.
        assert ((r, c) <> (r0, c0)) as Hne
            by (intros Heq; apply Hnot; left; congruence).
        assert (~ In (r, c) l) as Hnot' by (intros Hi; apply Hnot; right; exact Hi).
        destruct (Hout r c Hnot') as [He Hc]. rewrite He, Hc.
        unfold entry, cell. rewrite !assign_other by exact Hne.
        split; reflexivity.
      * rewrite Hu. rewrite orb_true_r. reflexivity.
    + (* the head is left alone *)
      assert (fill_visit (b, p, u) (r0, c0) = (b, p, u)) as ->.
      { unfold fill_visit. destruct (entry p r0 c0) as [opts |]; [| reflexivity].
        cbn [has_len] in Hsingle. rewrite Hsingle. reflexivity. }
      destruct (IH b p u Hb Hp) as (b' & p' & u' & Hfold & Hb' & Hp' & Hin & Hout & Hu).
      exists b', p', u'. split; [exact Hfold |].
      split; [exact Hb' |]. split; [exact Hp' |]. split; [| split].
      * intros r c [Hhead | Htail]; [| apply Hin, Htail].
        inversion Hhead; subst r0 c0.
        destruct (Hout r c Hnotin) as [He Hc]. rewrite He, Hc.
        unfold cleared. rewrite Hsingle, filled_not_single by exact Hsingle.
        split; reflexivity.
      * intros r c Hnot. apply Hout. intros Hi. apply Hnot. right. exact Hi.
      * rewrite Hu. reflexivity.
Qed.

Lemma sorted_NoDup {B : Type} (R : B -> B -> Prop) (l : list B) :
  (forall x, ~ R x x) -> StronglySorted R l -> List.NoDup l.
Proof.
  intros Hirr. induction 1 as [| x l Hsorted IH Hfirst]; constructor; [| exact IH].
  intros Hin. rewrite List.Forall_forall in Hfirst. exact (Hirr x (Hfirst x Hin)).
Qed.

Lemma scan_order_NoDup : List.NoDup scan_order.
Proof.
  apply (sorted_NoDup row_major_lt); [| exact scan_order_sorted].
  intros [r c]. unfold row_major_lt. cbn. lia.
Qed.

Lemma concat_entry (p : possibilities) (o : candidates) :
  shape9 p ->
  In o (concat p) <-> exists r c, (r < 9)%nat /\ (c < 9)%nat /\ entry p r c = o.
Proof. apply concat_lookup. Qed.

Lemma possible_continuation_true (p : possibilities) :
  shape9 p ->
  possible_continuation p = true <->
  exists r c, (r < 9)%nat /\ (c < 9)%nat /\ has_len 1 (entry p r c) = true.
Proof.
  intros Hp. unfold possible_continuation. rewrite existsb_exists. split.
  - intros (o & Hin & Ho). apply concat_entry in Hin as (r & c & Hr & Hc & <-);
      [| exact Hp]. eauto.
  - intros (r & c & Hr & Hc & Ho). exists (entry p r c). split; [| exact Ho].
    apply concat_entry; [exact Hp |]. eauto.
Qed.

Lemma has_len_1_cleared (o : candidates) : has_len 1 (cleared o) = false.
Proof. unfold cleared. destruct (has_len 1 o) eqn:Ho; [reflexivity | exact Ho]. Qed.

(** The whole pass on a 9x9 board and candidate grid. *)
Lemma fill_singles_spec (b : board) (p : possibilities) :
  shape9 b -> shape9 p ->
  exists b' p',
    fill_singles b p = (b', p', possible_continuation p) /\
    shape9 b' /\ shape9 p' /\
    possible_continuation p' = false /\
    forall r c, (r < 9)%nat -> (c < 9)%nat ->
                entry p' r c = cleared (entry p r c) /\
                cell b' r c = filled (entry p r c) (cell b r c).
Proof.
  intros Hb Hp. rewrite fill_singles_scan.
  destruct (fill_scan scan_order scan_order_NoDup b p false Hb Hp)
    as (b' & p' & u' & Hfold & Hb' & Hp' & Hin & _ & Hu).
  assert (forall r c, (r < 9)%nat -> (c < 9)%nat ->
                      entry p' r c = cleared (entry p r c) /\
                      cell b' r c = filled (entry p r c) (cell b r c)) as Hcells.
  { intros r c Hr Hc. apply Hin, scan_order_In. split; assumption. }
  exists b', p'. split; [| split; [exact Hb' | split; [exact Hp' | split; [| exact Hcells]]]].
  - rewrite Hfold. f_equal. rewrite Hu. cbn [orb].
    apply eq_true_iff_eq. rewrite possible_continuation_true by exact Hp.
    rewrite existsb_exists. split.
    + intros ([r c] & Hrc & Ho). apply scan_order_In in Hrc as [Hr Hc].
      exists r, c. auto.
    + intros (r & c & Hr & Hc & Ho). exists (r, c). split; [| exact Ho].
      apply scan_order_In. split; assumption.
  - destruct (possible_continuation p') eqn:Hcont; [| reflexivity].
    apply possible_continuation_true in Hcont as (r & c & Hr & Hc & Ho); [| exact Hp'].
    destruct (Hcells r c Hr Hc) as [He _]. rewrite He, has_len_1_cleared in Ho.
    discriminate.
Qed.

(** ** The loop of [one_stage] *)

Lemma one_stage_body_again (b : board) (p : possibilities) b' p' :
  shape9 b -> shape9 p ->
  one_stage_body b p = Again b' p' ->
  shape9 b' /\ shape9 p' /\
  possible_continuation p = true /\ possible_continuation p' = false /\
  forall r c, (r < 9)%nat -> (c < 9)%nat ->
              entry p' r c = cleared (entry p r c) /\
              cell b' r c = filled (entry p r c) (cell b r c).
Proof.
  intros Hb Hp. unfold one_stage_body.
  destruct (is_board_failure b || is_out_of_options p); [discriminate |].
  destruct (check_final_board b); [discriminate |].
  destruct (fill_singles_spec b p Hb Hp) as (b1 & p1 & Hfill & Hb1 & Hp1 & Hnone & Hcells).
  rewrite Hfill.
  destruct (possible_continuation p); cbn [negb]; [| discriminate].
  intros Heq. inversion Heq; subst b1 p1. auto.
Qed.






Lemma fill_updated_sticky (l : list (nat * nat)) (b : board) (p : possibilities) :
  snd (fold_left fill_visit l (b, p, true)) = true.
Proof.
  revert b p. induction l as [| [r c] l IH]; intros b p; [reflexivity |].
  cbn [fold_left]. unfold fill_visit at 2.
  destruct (entry p r c) as [opts |]; [| apply IH].
  destruct (length opts =? 1)%nat; apply IH.
Qed.

(** A pass that leaves [updated] false has touched neither grid. *)
Lemma fill_not_updated (l : list (nat * nat)) (b : board) (p : possibilities) b' p' :
  fold_left fill_visit l (b, p, false) = (b', p', false) -> b' = b /\ p' = p.
Proof.
  revert b p. induction l as [| [r c] l IH]; intros b p.
  - cbn. intros Heq. inversion Heq. auto.
  - cbn [fold_left].
    assert (fill_visit (b, p, false) (r, c) = (b, p, false) \/
            exists b1 p1, fill_visit (b, p, false) (r, c) = (b1, p1, true)) as [-> | (b1 & p1 & ->)].
    { unfold fill_visit. destruct (entry p r c) as [opts |]; [| left; reflexivity].
      destruct (length opts =? 1)%nat; [right; eauto | left; reflexivity]. }
    + apply IH.
    + intros Heq. pose proof (fill_updated_sticky l b1 p1) as Hst.
      rewrite Heq in Hst. discriminate.
Qed.

Lemma one_stage_body_terminal (b : board) (p : possibilities) o :
  one_stage_body b p = Return o -> terminal_ok o.
Proof.
  unfold one_stage_body, terminal_ok.
  destruct (is_board_failure b || is_out_of_options p) eqn:Hfail.
  { intros Hbody. injection Hbody as <-. exact (proj1 (orb_true_iff _ _) Hfail). }
  apply orb_false_iff in Hfail as [Hf1 Hf2].
  destruct (check_final_board b) eqn:Hfinal.
  { intros Hbody. injection Hbody as <-. exact (conj Hf1 (conj Hf2 Hfinal)). }
  destruct (possible_continuation p) eqn:Hcont.
  2: { intros Hbody. injection Hbody as <-. exact (conj Hf1 (conj Hf2 Hfinal)). }
  destruct (fill_singles b p) as [[b1 p1] u] eqn:Hfill.
  destruct u.
  - intros Hbody. discriminate Hbody.
  - intros Hbody. injection Hbody as <-.
    rewrite fill_singles_scan in Hfill.
    apply fill_not_updated in Hfill as [-> ->].
    exact (conj Hf1 (conj Hf2 Hfinal)).
Qed.

Lemma one_stage_terminal (fuel : nat) (b : board) (p : possibilities) o :
  one_stage fuel b p = Some o -> terminal_ok o.
Proof.
  revert b p. induction fuel as [| fuel IH]; intros b p; [discriminate |].
  cbn [one_stage]. destruct (one_stage_body b p) as [o' | b' p'] eqn:Hbody; [| apply IH].
  intros Heq. injection Heq as <-. exact (one_stage_body_terminal b p o' Hbody).
Qed.

(** ** Shape of the grids along a step *)

Lemma one_stage_body_return_grids (b : board) (p : possibilities) o :
  one_stage_body b p = Return o -> out_board o = b /\ out_poss o = p.
Proof.
  unfold one_stage_body.
  destruct (is_board_failure b || is_out_of_options p).
  { intros Hbody. injection Hbody as <-. split; reflexivity. }
  destruct (check_final_board b).
  { intros Hbody. injection Hbody as <-. split; reflexivity. }
  destruct (possible_continuation p).
  2: { intros Hbody. injection Hbody as <-. split; reflexivity. }
  destruct (fill_singles b p) as [[b1 p1] u] eqn:Hfill.
  destruct u.
  - intros Hbody. discriminate Hbody.
  - intros Hbody. injection Hbody as <-.
    rewrite fill_singles_scan in Hfill.
    apply fill_not_updated in Hfill as [-> ->]. split; reflexivity.
Qed.

Lemma one_stage_shape (fuel : nat) (b : board) (p : possibilities) o :
  shape9 b -> shape9 p -> one_stage fuel b p = Some o ->
  shape9 (out_board o) /\ shape9 (out_poss o).
Proof.
  revert b p. induction fuel as [| fuel IH]; intros b p Hb Hp; [discriminate |].
  cbn [one_stage]. destruct (one_stage_body b p) as [o' | b' p'] eqn:Hbody.
  - intros Heq. injection Heq as <-.
    destruct (one_stage_body_return_grids b p o' Hbody) as [-> ->]. auto.
  - apply one_stage_body_again in Hbody as (Hb' & Hp' & _); [| assumption..].
    apply IH; assumption.
Qed.

(** ** The prompt of [fill_board] *)

Lemma resume_choosing (fuel : nat) (b0 : board) (p0 : possibilities) b p r c opts :
  resume fuel b0 p0 = Some (Choosing b p r c opts) ->
  exists o, one_stage fuel b0 p0 = Some o /\ out_state o = NOT_FINISH /\
            b = assign (out_board o) r c 0 /\ p = out_poss o /\
            entry (out_poss o) r c = Some opts.
Proof.
  unfold resume. destruct (one_stage fuel b0 p0) as [o |]; [| discriminate].
  intros Hres. exists o. split; [reflexivity |].
  destruct (out_state o); destruct (out_loc o) as [[zr zc] |]; try discriminate.
  destruct (entry (out_poss o) (Z.to_nat zr) (Z.to_nat zc)) as [opts' |] eqn:He;
    [| discriminate].
  injection Hres as <- <- <- <- <-. auto.
Qed.

Lemma rejected_mem (opts : list Z) (choice : Z) :
  rejected opts (Some choice) -> mem choice opts = false.
Proof. intros Hrej. apply mem_false. exact Hrej. Qed.

(** C5 (as amended).  At the prompt the board is the one the step returned
    except for the awaiting cell, which already holds the display
    placeholder 0; a rejected line (unparsable, or a number that is not
    offered) changes neither grid nor the offered list, and the prompt is
    repeated; an offered digit is written to the awaiting cell and the
    candidates are recomputed. *)
Theorem rejected_reply_keeps_state
        (fuel : nat) (b0 : board) (p0 : possibilities)
        (b : board) (p : possibilities) (r c : nat) (opts : list Z)
        (line : option Z) :
  shape9 b0 -> shape9 p0 ->
  resume fuel b0 p0 = Some (Choosing b p r c opts) ->
  rejected opts line ->
  (exists o,
      one_stage fuel b0 p0 = Some o /\ out_state o = NOT_FINISH /\
      p = out_poss o /\ entry p r c = Some opts /\
      (r < 9)%nat /\ (c < 9)%nat /\
      cell b r c = 0 /\
      forall r' c', (r', c') <> (r, c) -> cell b r' c' = cell (out_board o) r' c') /\
  reply b p r c opts line = Choosing b p r c opts /\
  (forall n lines,
      drive (S n) (Choosing b p r c opts) (line :: lines) =
      drive n (Choosing b p r c opts) lines) /\
  (forall choice,
      In choice opts ->
      reply b p r c opts (Some choice) =
      Running (assign b r c choice) (possible_digits (assign b r c choice))).
Proof.
  intros Hb0 Hp0 Hres Hrej.
  assert (reply b p r c opts line = Choosing b p r c opts) as Hreply.
  { destruct line as [choice |]; [| reflexivity].
    unfold reply. rewrite (rejected_mem opts choice Hrej). reflexivity. }
  split; [| split; [exact Hreply | split]].
  - apply resume_choosing in Hres as (o & Hrun & Hstate & -> & -> & He).
    destruct (one_stage_shape fuel b0 p0 o Hb0 Hp0 Hrun) as [Hbo Hpo].
    destruct (entry_in_range _ r c opts Hpo He) as [Hr Hc].
    exists o. split; [exact Hrun |]. split; [exact Hstate |].
    split; [reflexivity |]. split; [exact He |].
    split; [exact Hr |]. split; [exact Hc |]. split.
    + unfold cell. apply assign_same; assumption.
    + intros r' c' Hne. unfold cell. apply assign_other. exact Hne.
  - intros n lines. cbn [drive]. rewrite Hreply. reflexivity.
  - intros choice Hin. unfold reply.
    rewrite (proj2 (mem_In choice opts) Hin). reflexivity.
Qed.

Lemma rejected_reply_keeps_state_witness :
  reply (assign empty_board 0 0 0) (possible_digits empty_board) 0 0
        [1; 2; 3; 4; 5; 6; 7; 8; 9] (Some 0) =
  Choosing (assign empty_board 0 0 0) (possible_digits empty_board) 0 0
           [1; 2; 3; 4; 5; 6; 7; 8; 9].
Proof.
  pose proof (rejected_reply_keeps_state
                1 empty_board (possible_digits empty_board)
                (assign empty_board 0 0 0) (possible_digits empty_board) 0 0
                [1; 2; 3; 4; 5; 6; 7; 8; 9] (Some 0)) as Hthm.
  refine (proj1 (proj2 (Hthm _ _ _ _))).
  - split; [reflexivity | repeat constructor].
  - apply possible_digits_shape9.
  - vm_compute. reflexivity.
  - cbn. lia.
Defined.

(** C5 (as stated) fails: on the empty board the step asks for a choice at
    (0, 0), and before the first line is read that cell is overwritten with
    the placeholder 0, so after a rejected line the board is not the one
    the step returned. *)
Lemma placeholder_written_before_choice : ~ untouched_until_choice.
Proof.
  intros Hclaim.
  destruct (Hclaim 1%nat empty_board
                   (Outcome NOT_FINISH (Some (0, 0)) empty_board
                            (possible_digits empty_board))
                   (assign empty_board 0 0 0) (possible_digits empty_board)
                   0%nat 0%nat [1; 2; 3; 4; 5; 6; 7; 8; 9] (Some 0))
    as (p2 & r2 & c2 & opts2 & Heq).
  - exact empty_board_shape9.
  - vm_compute. reflexivity.
  - vm_compute. reflexivity.
  - cbn. lia.
  - vm_compute in Heq. discriminate Heq.
Qed.

(** ** What the validity check detects *)

Lemma check_part_for_failure_true (part : list Z) :
  check_part_for_failure part = true <->
  exists num, 0 <= num <= 8 /\ (1 < count num part)%nat.
Proof.
  unfold check_part_for_failure. rewrite existsb_exists.
  assert (forall num, In num (range 0 9) <-> 0 <= num <= 8) as Hrange
      by (intros num; cbn; lia).
  split.
  - intros (num & Hin & Htest). apply andb_true_iff in Htest as [Hcount _].
    exists num. split; [apply Hrange, Hin | apply Nat.ltb_lt, Hcount].
  - intros (num & Hnum & Hcount). exists num. split; [apply Hrange, Hnum |].
    apply andb_true_iff. split; [apply Nat.ltb_lt, Hcount |].
    apply negb_true_iff, Z.eqb_neq. lia.
Qed.

(** A value is counted more than once exactly when it stands at two
    positions. *)
Lemma count_twice (l : list Z) (x : Z) :
  (1 < count x l)%nat <->
  exists i j, (i < j)%nat /\ l !! i = Some x /\ l !! j = Some x.
Proof.
  unfold count. induction l as [| a l IH]; cbn [count_occ].
  - split; [lia | intros (i & j & _ & Hi & _); discriminate].
  - destruct (Z.eq_dec a x) as [-> | Hne].
    + split.
      * intros Hcount.
        assert (In x l) as Hin by (apply (count_occ_In Z.eq_dec); lia).
        apply list_elem_of_In, list_elem_of_lookup in Hin as [j Hj].
        exists 0%nat, (S j). split; [lia |]. split; [reflexivity | exact Hj].
      * intros (i & j & Hij & Hi & Hj). destruct j as [| j]; [lia |].
        cbn in Hj. apply list_elem_of_lookup_2, list_elem_of_In in Hj.
        apply (count_occ_In Z.eq_dec) in Hj. lia.
    + rewrite IH. split.
      * intros (i & j & Hij & Hi & Hj). exists (S i), (S j).
        split; [lia |]. split; assumption.
      * intros (i & j & Hij & Hi & Hj).
        destruct i as [| i]; [cbn in Hi; congruence |].
        destruct j as [| j]; [lia |].
        exists i, j. split; [lia |]. split; assumption.
Qed.

Lemma part_duplicate (b : board) (cells : list (nat * nat)) :
  List.NoDup cells ->
  check_part_for_failure (values b cells) = true <->
  exists x y, In x cells /\ In y cells /\ x <> y /\
              cell b (fst x) (snd x) = cell b (fst y) (snd y) /\
              0 <= cell b (fst x) (snd x) <= 8.
Proof.
  intros Hnodup. apply NoDup_ListNoDup in Hnodup.
  rewrite check_part_for_failure_true.
  set (f := fun rc : nat * nat => cell b (fst rc) (snd rc)).
  assert (forall i v, values b cells !! i = Some v <->
                      exists x, cells !! i = Some x /\ f x = v) as Hlookup.
  { intros i v. unfold values. fold f.
    change (map f cells) with (f <$> cells). rewrite list_lookup_fmap.
    destruct (cells !! i) as [x |]; cbn.
    - split; [intros Heq; inversion Heq; eauto |].
      intros (x' & Heq & <-). inversion Heq. reflexivity.
    - split; [discriminate | intros (x' & Heq & _); discriminate]. }
  split.
  - intros (num & Hnum & Hcount).
    apply count_twice in Hcount as (i & j & Hij & Hi & Hj).
    apply Hlookup in Hi as (x & Hx & Hfx). apply Hlookup in Hj as (y & Hy & Hfy).
    exists x, y. fold (f x) (f y).
    split; [apply list_elem_of_In, (list_elem_of_lookup_2 _ i), Hx |].
    split; [apply list_elem_of_In, (list_elem_of_lookup_2 _ j), Hy |].
    split; [| split; [congruence | lia]].
    intros ->. pose proof (NoDup_lookup _ _ _ _ Hnodup Hx Hy). lia.
  - intros (x & y & Hx & Hy & Hne & Heq & Hval). fold (f x) (f y) in Heq, Hval.
    apply list_elem_of_In, list_elem_of_lookup in Hx as [i Hi].
    apply list_elem_of_In, list_elem_of_lookup in Hy as [j Hj].
    exists (f x). split; [exact Hval |]. apply count_twice.
    assert (i <> j) as Hij by (intros ->; congruence).
    destruct (Nat.lt_total i j) as [Hlt | [Heq' | Hgt]]; [| contradiction |].
    + exists i, j. split; [exact Hlt |].
      split; apply Hlookup; eauto.
    + exists j, i. split; [exact Hgt |].
      split; apply Hlookup; eauto.
Qed.

Lemma row_values (b : board) (r : nat) :
  shape9 b -> (r < 9)%nat -> b !!! r = values b (row_cells r).
Proof.
  intros Hb Hr. pose proof (shape9_row b r Hb Hr) as Hlen.
  unfold values, row_cells, cell. rewrite map_map. cbn [fst snd].
  destruct (b !!! r) as [| x0 [| x1 [| x2 [| x3 [| x4 [| x5 [| x6 [| x7 [| x8 [| x9 l]]]]]]]]]];
    try discriminate Hlen.
  reflexivity.
Qed.

Lemma column_values (b : board) (c : nat) : column b c = values b (column_cells c).
Proof. unfold column, values, column_cells. rewrite map_map. reflexivity. Qed.

Lemma square_values (b : board) (r0 c0 : nat) :
  square b r0 c0 = values b (square_cells r0 c0).
Proof.
  unfold square, values, square_cells.
  induction (indices r0 (r0 + 3)) as [| i l IH]; [reflexivity |].
  cbn [flat_map]. rewrite map_app, map_map, IH. reflexivity.
Qed.

Lemma row_cells_In r i j : In (i, j) (row_cells r) <-> i = r /\ (j < 9)%nat.
Proof.
  unfold row_cells, indices. rewrite in_map_iff. split.
  - intros (j' & Heq & Hin). inversion Heq; subst. apply in_seq in Hin. lia.
  - intros [-> Hj]. exists j. split; [reflexivity | apply in_seq; lia].
Qed.

Lemma column_cells_In c i j : In (i, j) (column_cells c) <-> (i < 9)%nat /\ j = c.
Proof.
  unfold column_cells, indices. rewrite in_map_iff. split.
  - intros (i' & Heq & Hin). inversion Heq; subst. apply in_seq in Hin. lia.
  - intros [Hi ->]. exists i. split; [reflexivity | apply in_seq; lia].
Qed.

Lemma square_cells_In r0 c0 i j :
  In (i, j) (square_cells r0 c0) <->
  (r0 <= i < r0 + 3)%nat /\ (c0 <= j < c0 + 3)%nat.
Proof.
  unfold square_cells, indices. rewrite in_flat_map. split.
  - intros (i' & Hi & Hin). apply in_map_iff in Hin as (j' & Heq & Hj).
    inversion Heq; subst. apply in_seq in Hi, Hj. lia.
  - intros [Hi Hj]. exists i. split; [apply in_seq; lia |].
    apply in_map_iff. exists j. split; [reflexivity | apply in_seq; lia].
Qed.

Lemma row_cells_NoDup r : List.NoDup (row_cells r).
Proof.
  unfold row_cells, indices.
  apply Finite.Injective_map_NoDup; [| apply List.seq_NoDup].
  intros x y Heq. inversion Heq. reflexivity.
Qed.

Lemma column_cells_NoDup c : List.NoDup (column_cells c).
Proof.
  unfold column_cells, indices.
  apply Finite.Injective_map_NoDup; [| apply List.seq_NoDup].
  intros x y Heq. inversion Heq. reflexivity.
Qed.

Lemma product_NoDup (rs cs : list nat) :
  List.NoDup rs -> List.NoDup cs ->
  List.NoDup (flat_map (fun i => map (fun j => (i, j)) cs) rs).
Proof.
  intros Hrs Hcs. induction Hrs as [| i rs Hnotin Hrs IH]; cbn [flat_map].
  - constructor.
  - apply List.NoDup_app.
    + apply Finite.Injective_map_NoDup; [| exact Hcs].
      intros x y Heq. inversion Heq. reflexivity.
    + exact IH.
    + intros [i' j'] Hin1 Hin2.
      apply in_map_iff in Hin1 as (j & Heq & _). inversion Heq; subst.
      apply in_flat_map in Hin2 as (i & Hi & Hin2).
      apply in_map_iff in Hin2 as (j & Heq2 & _). inversion Heq2; subst.
      contradiction.
Qed.

Lemma square_cells_NoDup r0 c0 : List.NoDup (square_cells r0 c0).
Proof. unfold square_cells, indices. apply product_NoDup; apply List.seq_NoDup. Qed.

Lemma block_start (r : nat) :
  (r < 9)%nat -> In (3 * (r / 3))%nat [0; 3; 6]%nat.
Proof.
  intros Hr. pose proof (Nat.div_mod_eq r 3).
  pose proof (Nat.mod_upper_bound r 3 ltac:(lia)).
  cbn [In]. lia.
Qed.

Lemma block_of_start (r0 i : nat) :
  In r0 [0; 3; 6]%nat -> (r0 <= i < r0 + 3)%nat ->
  (i < 9)%nat /\ (3 * (i / 3))%nat = r0.
Proof.
  intros Hr0 Hi. pose proof (Nat.div_mod_eq i 3).
  pose proof (Nat.mod_upper_bound i 3 ltac:(lia)).
  cbn [In] in Hr0. lia.
Qed.

(** The validity check answers [True] exactly when a value between 0 and
    8 stands twice in a row, a column or a box: the empty marker -1 never
    counts, and neither does the digit 9. *)
Lemma is_board_failure_true (b : board) :
  shape9 b -> is_board_failure b = true <-> duplicated_below_nine b.
Proof.
  intros Hb. unfold is_board_failure, duplicated_below_nine.
  rewrite orb_true_iff, !existsb_exists. split.
  - intros [(i & Hi & Htest) | (r0 & Hr0 & Htest)].
    + apply in_seq in Hi. apply orb_true_iff in Htest as [Hrow | Hcol].
      * rewrite row_values in Hrow by (assumption || lia).
        apply part_duplicate in Hrow
          as ([r1 c1] & [r2 c2] & H1 & H2 & Hne & Heq & Hval);
          [| apply row_cells_NoDup].
        apply row_cells_In in H1 as [-> Hc1]. apply row_cells_In in H2 as [-> Hc2].
        exists i, c1, i, c2. unfold same_unit. cbn [fst snd] in *.
        do 4 (split; [first [lia | assumption] |]).
        split; [exact Hne |]. split; [left; reflexivity |].
        split; [exact Heq | exact Hval].
      * rewrite column_values in Hcol.
        apply part_duplicate in Hcol
          as ([r1 c1] & [r2 c2] & H1 & H2 & Hne & Heq & Hval);
          [| apply column_cells_NoDup].
        apply column_cells_In in H1 as [Hr1 ->].
        apply column_cells_In in H2 as [Hr2 ->].
        exists r1, i, r2, i. unfold same_unit. cbn [fst snd] in *.
        do 4 (split; [first [lia | assumption] |]).
        split; [exact Hne |]. split; [right; left; reflexivity |].
        split; [exact Heq | exact Hval].
    + apply existsb_exists in Htest as (c0 & Hc0 & Htest).
      rewrite square_values in Htest.
      apply part_duplicate in Htest
        as ([r1 c1] & [r2 c2] & H1 & H2 & Hne & Heq & Hval);
        [| apply square_cells_NoDup].
      apply square_cells_In in H1 as [Hr1 Hc1].
      apply square_cells_In in H2 as [Hr2 Hc2].
      destruct (block_of_start r0 r1 Hr0 Hr1) as [Hr1' Hb1].
      destruct (block_of_start r0 r2 Hr0 Hr2) as [Hr2' Hb2].
      destruct (block_of_start c0 c1 Hc0 Hc1) as [Hc1' Hd1].
      destruct (block_of_start c0 c2 Hc0 Hc2) as [Hc2' Hd2].
      exists r1, c1, r2, c2. unfold same_unit. cbn [fst snd] in *.
      do 4 (split; [assumption |]).
      split; [exact Hne |]. split; [right; right; lia |].
      split; [exact Heq | exact Hval].
  - intros (r1 & c1 & r2 & c2 & Hr1 & Hc1 & Hr2 & Hc2 & Hne & Hunit & Heq & Hval).
    assert (forall cells,
               List.NoDup cells -> In (r1, c1) cells -> In (r2, c2) cells ->
               check_part_for_failure (values b cells) = true) as Hpart.
    { intros cells Hnodup H1 H2. apply part_duplicate; [exact Hnodup |].
      exists (r1, c1), (r2, c2). cbn [fst snd]. auto. }
    destruct Hunit as [Hrow | [Hcol | [Hbr Hbc]]]; cbn [fst snd] in *.
    + subst r2. left. exists r1. split; [apply in_seq; lia |].
      apply orb_true_iff. left. rewrite row_values by assumption.
      apply Hpart; [apply row_cells_NoDup | apply row_cells_In; auto..].
    + subst c2. left. exists c1. split; [apply in_seq; lia |].
      apply orb_true_iff. right. rewrite column_values.
      apply Hpart; [apply column_cells_NoDup | apply column_cells_In; auto..].
    + right. exists (3 * (r1 / 3))%nat. split; [apply block_start, Hr1 |].
      apply existsb_exists. exists (3 * (c1 / 3))%nat.
      split; [apply block_start, Hc1 |].
      rewrite square_values.
      apply Hpart; [apply square_cells_NoDup | apply square_cells_In..].
      * split; apply same_block; reflexivity.
      * split; apply same_block; congruence.
Qed.

Lemma duplicated_below_nine_duplicated (b : board) :
  duplicated_below_nine b -> duplicated b.
Proof.
  intros (r1 & c1 & r2 & c2 & Hr1 & Hc1 & Hr2 & Hc2 & Hne & Hunit & Heq & Hval).
  exists r1, c1, r2, c2. do 4 (split; [assumption |]).
  split; [exact Hne |]. split; [exact Hunit |]. split; [exact Heq | lia].
Qed.

Lemma check_final_board_true (b : board) :
  shape9 b ->
  check_final_board b = true <->
  forall r c, (r < 9)%nat -> (c < 9)%nat -> cell b r c <> -1.
Proof.
  intros Hb. unfold check_final_board. rewrite forallb_forall. split.
  - intros Hall r c Hr Hc.
    assert (In (cell b r c) (concat b)) as Hin
        by (apply concat_lookup; [exact Hb | exists r, c; auto]).
    apply Hall, negb_true_iff, Z.eqb_neq in Hin. exact Hin.
  - intros Hall x Hin. apply concat_lookup in Hin as (r & c & Hr & Hc & <-);
      [| exact Hb].
    apply negb_true_iff, Z.eqb_neq. exact (Hall r c Hr Hc).
Qed.

Lemma is_out_of_options_true (p : possibilities) :
  shape9 p ->
  is_out_of_options p = true <->
  exists r c, (r < 9)%nat /\ (c < 9)%nat /\ entry p r c = Some [].
Proof.
  intros Hp. unfold is_out_of_options. rewrite existsb_exists. split.
  - intros (o & Hin & Ho). apply concat_entry in Hin as (r & c & Hr & Hc & <-);
      [| exact Hp].
    exists r, c. split; [exact Hr |]. split; [exact Hc |].
    destruct (entry p r c) as [[| x l] |]; cbn in Ho; congruence.
  - intros (r & c & Hr & Hc & He). exists (entry p r c).
    split; [apply concat_entry; [exact Hp | eauto] | rewrite He; reflexivity].
Qed.

(** The filling pass creates no entry without candidates. *)
Lemma one_stage_body_again_options (b : board) (p : possibilities) b' p' :
  shape9 b -> shape9 p ->
  one_stage_body b p = Again b' p' -> is_out_of_options p' = false.
Proof.
  intros Hb Hp Hbody.
  assert (is_out_of_options p = false) as Hnone.
  { unfold one_stage_body in Hbody.
    destruct (is_board_failure b || is_out_of_options p) eqn:Hfail;
      [discriminate Hbody |].
    apply orb_false_iff in Hfail as [_ Hf]. exact Hf. }
  apply one_stage_body_again in Hbody as (_ & Hp' & _ & _ & Hcells); [| assumption..].
  destruct (is_out_of_options p') eqn:Hout; [| reflexivity].
  apply is_out_of_options_true in Hout as (r & c & Hr & Hc & He); [| exact Hp'].
  destruct (Hcells r c Hr Hc) as [He' _]. rewrite He' in He.
  assert (entry p r c = Some []) as Hempty.
  { unfold cleared in He. destruct (has_len 1 (entry p r c)); [discriminate | exact He]. }
  assert (is_out_of_options p = true) as Hyes
      by (apply is_out_of_options_true; [exact Hp | eauto]).
  congruence.
Qed.

(** X1.  The half of the failure outcome that the code does honour: when a step
    started on a board with its fresh candidates returns [FINISH_FAILURE],
    the board it returns has a duplicate, or it is the board it was given
    and one of its open cells has no candidate. *)
Lemma one_stage_failure_sound (fuel : nat) (b : board) o :
  shape9 b ->
  one_stage fuel b (possible_digits b) = Some o ->
  out_state o = FINISH_FAILURE ->
  duplicated (out_board o) \/
  (out_board o = b /\
   exists r c, (r < 9)%nat /\ (c < 9)%nat /\ cell b r c = -1 /\ options b (r, c) = []).
Proof.
  intros Hb Hrun Hstate.
  assert (forall fuel (b1 : board) (p1 : possibilities),
             shape9 b1 -> shape9 p1 -> is_out_of_options p1 = false ->
             one_stage fuel b1 p1 = Some o ->
             is_board_failure (out_board o) = true) as Hlater.
  { clear fuel Hrun. induction fuel as [| fuel IH]; intros b1 p1 Hb1 Hp1 Hnone;
      [discriminate |].
    cbn [one_stage]. destruct (one_stage_body b1 p1) as [o' | b2 p2] eqn:Hbody.
    - intros Heq. injection Heq as ->.
      pose proof (one_stage_body_terminal b1 p1 o Hbody) as Hterm.
      unfold terminal_ok in Hterm. rewrite Hstate in Hterm.
      destruct (one_stage_body_return_grids b1 p1 o Hbody) as [_ Hposs].
      rewrite Hposs in Hterm. destruct Hterm as [Hfail | Hout];
        [exact Hfail | congruence].
    - pose proof (one_stage_body_again_options b1 p1 b2 p2 Hb1 Hp1 Hbody) as Hnone2.
      apply one_stage_body_again in Hbody as (Hb2 & Hp2 & _); [| assumption..].
      apply IH; assumption. }
  assert (shape9 (out_board o)) as Hbo
      by (apply (one_stage_shape fuel b (possible_digits b) o Hb
                                 (possible_digits_shape9 b) Hrun)).
  destruct (is_out_of_options (possible_digits b)) eqn:Hout.
  - (* the first iteration fails on the candidates *)
    right. destruct fuel as [| fuel]; [discriminate |].
    cbn [one_stage] in Hrun. unfold one_stage_body in Hrun.
    rewrite Hout, orb_true_r in Hrun. injection Hrun as <-.
    split; [reflexivity |].
    apply is_out_of_options_true in Hout as (r & c & Hr & Hc & He);
      [| apply possible_digits_shape9].
    rewrite entry_possible_digits in He by assumption.
    exists r, c. split; [exact Hr |]. split; [exact Hc |].
    destruct (Z.eqb_spec (cell b r c) (-1)) as [Hopen | _]; [| discriminate].
    split; [exact Hopen | congruence].
  - left. apply duplicated_below_nine_duplicated, is_board_failure_true; [exact Hbo |].
    exact (Hlater fuel b (possible_digits b) Hb (possible_digits_shape9 b) Hout Hrun).
Qed.

(** X2.  The half of the success outcome that the code does honour: the
    returned board has no empty cell and no value between 0 and 8 twice in
    a row, column or box. *)
Lemma one_stage_success_sound (fuel : nat) (b : board) (p : possibilities) o :
  shape9 b -> shape9 p ->
  one_stage fuel b p = Some o ->
  out_state o = FINISH_SUCCESS ->
  (forall r c, (r < 9)%nat -> (c < 9)%nat -> cell (out_board o) r c <> -1) /\
  ~ duplicated_below_nine (out_board o).
Proof.
  intros Hb Hp Hrun Hstate.
  destruct (one_stage_shape fuel b p o Hb Hp Hrun) as [Hbo _].
  pose proof (one_stage_terminal fuel b p o Hrun) as Hterm.
  unfold terminal_ok in Hterm. rewrite Hstate in Hterm.
  destruct Hterm as (Hfail & _ & Hfinal). split.
  - apply check_final_board_true; assumption.
  - intros Hdup. apply is_board_failure_true in Hdup; [congruence | exact Hbo].
Qed.

(** ** Where the code departs from its documentation *)

Lemma two_nines_duplicated : duplicated two_nines_board.
Proof.
  exists 0%nat, 0%nat, 0%nat, 1%nat. unfold same_unit. cbn [fst snd].
  repeat (split; [lia |]).
  split; [intros Heq; inversion Heq |].
  split; [left; reflexivity |].
  split; [reflexivity | vm_compute; discriminate].
Qed.

Lemma nine_twice_duplicated : duplicated nine_twice_board.
Proof.
  exists 0%nat, 0%nat, 0%nat, 6%nat. unfold same_unit. cbn [fst snd].
  repeat (split; [lia |]).
  split; [intros Heq; inversion Heq |].
  split; [left; reflexivity |].
  split; [reflexivity | vm_compute; discriminate].
Qed.

(** C1.  [check_part_for_failure] tries the numbers of [range(9)], that is
    0..8, so a repeated 9 is never seen: the board whose first row starts
    with two 9s has a duplicate, and [is_board_failure] answers [False]. *)
Theorem is_board_failure_misses_nine :
  duplicated two_nines_board /\
  check_part_for_failure [9; 9; -1; -1; -1; -1; -1; -1; -1] = false /\
  is_board_failure two_nines_board = false.
Proof.
  split; [exact two_nines_duplicated |].
  split; vm_compute; reflexivity.
Qed.

(** C2.  After the pass that fills the single-candidate cells the loop
    goes round with the candidate lists of the other cells untouched: on
    [stale_board] the pass writes 2 into (0, 8), the entry of (0, 7) stays
    [1; 2] although [options] now gives [1] there, and the step returns
    asking for a choice at (0, 7) with the stale list. *)
Theorem candidates_not_recomputed :
  exists b' p',
    one_stage_body stale_board (possible_digits stale_board) = Again b' p' /\
    cell stale_board 0 8 = -1 /\ cell b' 0 8 = 2 /\
    entry p' 0 7 = Some [1; 2] /\
    entry (possible_digits b') 0 7 = Some [1] /\
    p' <> possible_digits b' /\
    one_stage 2 stale_board (possible_digits stale_board) =
      Some (Outcome NOT_FINISH (Some (0, 7)) b' p').
Proof.
  eexists. eexists. split; [vm_compute; reflexivity |].
  split; [reflexivity |]. split; [reflexivity |].
  split; [reflexivity |]. split; [vm_compute; reflexivity |].
  split; [| vm_compute; reflexivity].
  intros Heq. apply (f_equal (fun p => entry p 0 7)) in Heq.
  vm_compute in Heq. discriminate Heq.
Qed.

(** C3.  A complete board with a repeated 9 is reported solved: the step
    returns [FINISH_SUCCESS] on [nine_twice_board], which has no empty cell
    but holds 9 twice in its first row. *)
Theorem solved_with_duplicate_nine (fuel : nat) :
  one_stage (S fuel) nine_twice_board (possible_digits nine_twice_board) =
    Some (Outcome FINISH_SUCCESS (Some (10, 10)) nine_twice_board
                  (possible_digits nine_twice_board)) /\
  check_final_board nine_twice_board = true /\
  duplicated nine_twice_board.
Proof.
  split; [| split; [vm_compute; reflexivity | exact nine_twice_duplicated]].
  cbn [one_stage].
  assert (one_stage_body nine_twice_board (possible_digits nine_twice_board) =
          Return (Outcome FINISH_SUCCESS (Some (10, 10)) nine_twice_board
                          (possible_digits nine_twice_board))) as ->
      by (vm_compute; reflexivity).
  reflexivity.
Qed.

(** C4.  A board with a repeated 9 does not make the step fail: on
    [two_nines_board], whose first row starts with two 9s, the step returns
    [NOT_FINISH] and asks for a choice at (0, 2). *)
Theorem duplicate_nine_not_failure (fuel : nat) :
  duplicated two_nines_board /\
  one_stage (S fuel) two_nines_board (possible_digits two_nines_board) =
    Some (Outcome NOT_FINISH (Some (0, 2)) two_nines_board
                  (possible_digits two_nines_board)).
Proof.
  split; [exact two_nines_duplicated |].
  cbn [one_stage].
  assert (one_stage_body two_nines_board (possible_digits two_nines_board) =
          Return (Outcome NOT_FINISH (Some (0, 2)) two_nines_board
                          (possible_digits two_nines_board))) as ->
      by (vm_compute; reflexivity).
  reflexivity.
Qed.

(** * Further properties of the code *)

(** ** Candidates are safe moves *)

Lemma options_In_open (b : board) r c d :
  In d (options b (r, c)) -> cell b r c = -1.
Proof.
  unfold options. destruct (Z.eqb_spec (cell b r c) (-1)) as [Heq | Hne];
    [intros _; exact Heq | intros []].
Qed.

(** After a candidate is written, the written cell takes part in no pair
    of equal values of one unit. *)
Lemma assign_candidate_pair (b : board) r c d r1 c1 r2 c2 :
  shape9 b -> (r < 9)%nat -> (c < 9)%nat ->
  In d (options b (r, c)) ->
  (r1 < 9)%nat -> (c1 < 9)%nat -> (r2 < 9)%nat -> (c2 < 9)%nat ->
  (r1, c1) <> (r2, c2) -> same_unit (r1, c1) (r2, c2) ->
  cell (assign b r c d) r1 c1 = cell (assign b r c d) r2 c2 ->
  (r1, c1) <> (r, c) /\ (r2, c2) <> (r, c).
Proof.
  intros Hb Hr Hc Hin Hr1 Hc1 Hr2 Hc2 Hne Hunit Heq.
  pose proof (options_In_open b r c d Hin) as Hopen.
  apply options_open_In in Hin as [Hd (Hrow & Hcol & Hbox)]; [| assumption..].
  assert (forall i j, (i < 9)%nat -> (j < 9)%nat -> (i, j) <> (r, c) ->
                      same_unit (i, j) (r, c) -> cell b i j <> d) as Hpeer.
  { intros i j Hi Hj Hdiff [Hsame | [Hsame | [Hs1 Hs2]]]; cbn [fst snd] in *.
    - subst i. apply Hrow, Hj.
    - subst j. apply Hcol, Hi.
    - apply Hbox; assumption. }
  unfold cell in Heq. split; intros Hat.
  - inversion Hat; subst r1 c1.
    rewrite assign_same in Heq by assumption.
    rewrite assign_other in Heq by congruence.
    apply (Hpeer r2 c2 Hr2 Hc2); [congruence | | symmetry; exact Heq].
    destruct Hunit as [Hs | [Hs | [Hs1 Hs2]]]; cbn [fst snd] in *;
      [left | right; left | right; right]; cbn [fst snd]; auto.
  - inversion Hat; subst r2 c2.
    rewrite assign_same in Heq by assumption.
    rewrite assign_other in Heq by congruence.
    apply (Hpeer r1 c1 Hr1 Hc1); [congruence | exact Hunit | exact Heq].
Qed.

(** X3.  Writing a candidate of an open cell into that cell creates no
    duplicate: a board without a repeated value in any row, column or box
    stays so, and a board that passed the validity check passes it again. *)
Theorem candidate_keeps_valid (b : board) (r c : nat) (d : Z) :
  shape9 b -> (r < 9)%nat -> (c < 9)%nat ->
  In d (options b (r, c)) ->
  (~ duplicated b -> ~ duplicated (assign b r c d)) /\
  (is_board_failure b = false -> is_board_failure (assign b r c d) = false).
Proof.
  intros Hb Hr Hc Hin.
  assert (forall r1 c1 r2 c2,
             (r1 < 9)%nat -> (c1 < 9)%nat -> (r2 < 9)%nat -> (c2 < 9)%nat ->
             (r1, c1) <> (r2, c2) -> same_unit (r1, c1) (r2, c2) ->
             cell (assign b r c d) r1 c1 = cell (assign b r c d) r2 c2 ->
             cell (assign b r c d) r1 c1 = cell b r1 c1 /\
             cell b r1 c1 = cell b r2 c2) as Hback.
  { intros r1 c1 r2 c2 Hr1 Hc1 Hr2 Hc2 Hne Hunit Heq.
    destruct (assign_candidate_pair b r c d r1 c1 r2 c2) as [H1 H2]; try assumption.
    unfold cell in *. rewrite !assign_other in Heq by assumption.
    rewrite assign_other by assumption. auto. }
  split.
  - intros Hvalid (r1 & c1 & r2 & c2 & Hr1 & Hc1 & Hr2 & Hc2 & Hne & Hunit & Heq & Hval).
    destruct (Hback r1 c1 r2 c2) as [Hsame Heq']; try assumption.
    apply Hvalid. exists r1, c1, r2, c2. do 4 (split; [assumption |]).
    split; [exact Hne |]. split; [exact Hunit |]. split; [exact Heq' | congruence].
  - intros Hok. destruct (is_board_failure (assign b r c d)) eqn:Hfail; [| reflexivity].
    apply is_board_failure_true in Hfail; [| apply assign_shape9, Hb].
    destruct Hfail
      as (r1 & c1 & r2 & c2 & Hr1 & Hc1 & Hr2 & Hc2 & Hne & Hunit & Heq & Hval).
    destruct (Hback r1 c1 r2 c2) as [Hsame Heq']; try assumption.
    assert (is_board_failure b = true) as Hyes.
    { apply is_board_failure_true; [exact Hb |].
      exists r1, c1, r2, c2. do 4 (split; [assumption |]).
      split; [exact Hne |]. split; [exact Hunit |]. split; [exact Heq' | lia]. }
    congruence.
Qed.

Lemma candidate_keeps_valid_witness :
  (~ duplicated stale_board -> ~ duplicated (assign stale_board 0 8 2)) /\
  (is_board_failure stale_board = false ->
   is_board_failure (assign stale_board 0 8 2) = false).
Proof.
  apply (candidate_keeps_valid stale_board 0 8 2).
  - split; [reflexivity | repeat constructor].
  - lia.
  - lia.
  - vm_compute. left. reflexivity.
Defined.

(** ** The validity check, exactly *)

(** X4.  [is_board_failure] answers [True] exactly when a value between 0 and 8
    stands twice in a row, a column or a box; whenever it answers [True]
    there is a duplicate, and on a board whose cells all lie between -1 and
    8 it answers [True] exactly when there is one. *)
Theorem validity_check_exact (b : board) :
  shape9 b ->
  (is_board_failure b = true <-> duplicated_below_nine b) /\
  (is_board_failure b = true -> duplicated b) /\
  ((forall r c, (r < 9)%nat -> (c < 9)%nat -> -1 <= cell b r c <= 8) ->
   (is_board_failure b = true <-> duplicated b)).
Proof.
  intros Hb. pose proof (is_board_failure_true b Hb) as Hexact.
  split; [exact Hexact |]. split.
  - intros Hfail. apply duplicated_below_nine_duplicated, Hexact, Hfail.
  - intros Hrange. rewrite Hexact. split; [apply duplicated_below_nine_duplicated |].
    intros (r1 & c1 & r2 & c2 & Hr1 & Hc1 & Hr2 & Hc2 & Hne & Hunit & Heq & Hval).
    exists r1, c1, r2, c2. do 4 (split; [assumption |]).
    split; [exact Hne |]. split; [exact Hunit |]. split; [exact Heq |].
    pose proof (Hrange r1 c1 Hr1 Hc1). lia.
Qed.

Lemma validity_check_exact_witness :
  (is_board_failure two_nines_board = true <-> duplicated_below_nine two_nines_board) /\
  (is_board_failure two_nines_board = true -> duplicated two_nines_board) /\
  ((forall r c, (r < 9)%nat -> (c < 9)%nat -> -1 <= cell two_nines_board r c <= 8) ->
   (is_board_failure two_nines_board = true <-> duplicated two_nines_board)).
Proof.
  apply (validity_check_exact two_nines_board).
  split; [reflexivity | repeat constructor].
Defined.

(** ** The candidate lists *)

Lemma filter_sorted (f : Z -> bool) (l : list Z) :
  StronglySorted Z.lt l -> StronglySorted Z.lt (List.filter f l).
Proof.
  induction 1 as [| x l Hsorted IH Hfirst]; cbn [List.filter]; [constructor |].
  destruct (f x); [| exact IH]. constructor; [exact IH |].
  rewrite List.Forall_forall in *. intros y Hy. apply filter_In in Hy as [Hy _].
  exact (Hfirst y Hy).
Qed.

Lemma option_in_part_sorted (row : list Z) : StronglySorted Z.lt (option_in_part row).
Proof.
  unfold option_in_part. apply filter_sorted. cbn.
  repeat (constructor; [| repeat (constructor; [lia |]); constructor]).
  constructor.
Qed.

Lemma option_in_part_length (row : list Z) : (length (option_in_part row) <= 9)%nat.
Proof. unfold option_in_part. apply (filter_length_le _ (range 1 10)). Qed.

(** X5.  The list [options] returns is in increasing order, holds only digits
    between 1 and 9, and has at most nine entries. *)
Theorem options_sorted (b : board) (r c : nat) :
  shape9 b -> (r < 9)%nat -> (c < 9)%nat ->
  StronglySorted Z.lt (options b (r, c)) /\
  (forall d, In d (options b (r, c)) -> 1 <= d <= 9) /\
  (length (options b (r, c)) <= 9)%nat.
Proof.
  intros Hb Hr Hc. unfold options.
  destruct (negb (cell b r c =? -1)).
  - split; [constructor |]. split; [intros d [] | cbn; lia].
  - split; [apply filter_sorted, option_in_part_sorted |]. split.
    + intros d Hd. apply filter_In in Hd as [Hd _].
      apply option_in_part_In in Hd as [Hd _]. exact Hd.
    + etransitivity; [apply filter_length_le | apply option_in_part_length].
Qed.

Lemma options_sorted_witness :
  StronglySorted Z.lt (options stale_board (0%nat, 7%nat)) /\
  (forall d, In d (options stale_board (0%nat, 7%nat)) -> 1 <= d <= 9) /\
  (length (options stale_board (0%nat, 7%nat)) <= 9)%nat.
Proof.
  apply (options_sorted stale_board 0 7).
  - split; [reflexivity | repeat constructor].
  - lia.
  - lia.
Defined.

(** ** Contradictions and complete boards *)

(** On fresh candidates, "some open cell has no candidate" read on the
    board. *)
Lemma out_of_options_fresh (b : board) :
  shape9 b ->
  is_out_of_options (possible_digits b) = true <->
  exists r c, (r < 9)%nat /\ (c < 9)%nat /\ cell b r c = -1 /\ options b (r, c) = [].
Proof.
  intros Hb. rewrite is_out_of_options_true by apply possible_digits_shape9. split.
  - intros (r & c & Hr & Hc & He). rewrite entry_possible_digits in He by assumption.
    exists r, c. split; [exact Hr |]. split; [exact Hc |].
    destruct (Z.eqb_spec (cell b r c) (-1)) as [Hopen | _]; [| discriminate].
    split; [exact Hopen | congruence].
  - intros (r & c & Hr & Hc & Hopen & Hnone). exists r, c.
    split; [exact Hr |]. split; [exact Hc |].
    rewrite entry_possible_digits, Hopen, Hnone by assumption. reflexivity.
Qed.

(** X6.  [is_out_of_options] on the candidates computed from a board answers
    [True] exactly when some open cell sees every digit from 1 to 9 in its
    row, its column or its box. *)
Theorem out_of_options_exact (b : board) :
  shape9 b ->
  is_out_of_options (possible_digits b) = true <->
  exists r c, (r < 9)%nat /\ (c < 9)%nat /\ cell b r c = -1 /\
              forall d, 1 <= d <= 9 -> ~ absent b r c d.
Proof.
  intros Hb. rewrite out_of_options_fresh by exact Hb. split.
  - intros (r & c & Hr & Hc & Hopen & Hnone). exists r, c.
    split; [exact Hr |]. split; [exact Hc |]. split; [exact Hopen |].
    intros d Hd Habs.
    assert (In d (options b (r, c))) as Hin
        by (apply options_open_In; [assumption.. | split; assumption]).
    rewrite Hnone in Hin. exact Hin.
  - intros (r & c & Hr & Hc & Hopen & Hall). exists r, c.
    split; [exact Hr |]. split; [exact Hc |]. split; [exact Hopen |].
    destruct (options b (r, c)) as [| d l] eqn:Hopts; [reflexivity |].
    assert (In d (options b (r, c))) as Hin by (rewrite Hopts; left; reflexivity).
    apply options_open_In in Hin as [Hd Habs]; [| assumption..].
    exfalso. exact (Hall d Hd Habs).
Qed.

Lemma out_of_options_exact_witness :
  is_out_of_options (possible_digits stale_board) = true <->
  exists r c, (r < 9)%nat /\ (c < 9)%nat /\ cell stale_board r c = -1 /\
              forall d, 1 <= d <= 9 -> ~ absent stale_board r c d.
Proof.
  apply (out_of_options_exact stale_board).
  split; [reflexivity | repeat constructor].
Defined.

(** The result of [find_least_options], whatever the grid. *)
Lemma find_least_options_cases (p : possibilities) :
  match find_least_options p with
  | None =>
      forall r c opts, (r < 9)%nat -> (c < 9)%nat -> entry p r c = Some opts ->
                       (0 < length opts)%nat -> (10 <= length opts)%nat
  | Some (zr, zc) =>
      exists r c opts,
        zr = Z.of_nat r /\ zc = Z.of_nat c /\ (r < 9)%nat /\ (c < 9)%nat /\
        entry p r c = Some opts /\ (0 < length opts < 10)%nat
  end.
Proof.
  rewrite find_least_options_scan.
  destruct (least_scan p scan_order scan_order_sorted 10%nat None)
    as [[Heq Hall] | (r & c & opts & Hin & Heq & He & Hlen & Hall)];
    rewrite Heq; cbn [snd].
  - intros r c opts Hr Hc. apply Hall, scan_order_In. split; assumption.
  - apply scan_order_In in Hin as [Hr Hc].
    exists r, c, opts. repeat (split; [first [reflexivity | assumption | lia] |]).
    lia.
Qed.

(** X7.  On a board without empty cell every candidate entry is [None], no
    branch cell is found, and the step returns in its first iteration:
    [FINISH_FAILURE] when the validity check fires, [FINISH_SUCCESS]
    otherwise, the board untouched. *)
Theorem complete_board_step (b : board) (fuel : nat) :
  shape9 b -> check_final_board b = true ->
  (forall r c, (r < 9)%nat -> (c < 9)%nat -> entry (possible_digits b) r c = None) /\
  find_least_options (possible_digits b) = None /\
  one_stage (S fuel) b (possible_digits b) =
    Some (if is_board_failure b
          then Outcome FINISH_FAILURE (Some (-1, -1)) b (possible_digits b)
          else Outcome FINISH_SUCCESS (Some (10, 10)) b (possible_digits b)).
Proof.
  intros Hb Hfinal.
  assert (forall r c, (r < 9)%nat -> (c < 9)%nat ->
                      entry (possible_digits b) r c = None) as Hnone.
  { intros r c Hr Hc. rewrite entry_possible_digits by assumption.
    pose proof (proj1 (check_final_board_true b Hb) Hfinal r c Hr Hc) as Hfilled.
    destruct (Z.eqb_spec (cell b r c) (-1)); [contradiction | reflexivity]. }
  split; [exact Hnone |]. split.
  - pose proof (find_least_options_cases (possible_digits b)) as Hcases.
    destruct (find_least_options (possible_digits b)) as [[zr zc] |]; [| reflexivity].
    destruct Hcases as (r & c & opts & _ & _ & Hr & Hc & He & _).
    rewrite Hnone in He by assumption. discriminate He.
  - assert (is_out_of_options (possible_digits b) = false) as Hout.
    { destruct (is_out_of_options (possible_digits b)) eqn:Hout; [| reflexivity].
      apply is_out_of_options_true in Hout as (r & c & Hr & Hc & He);
        [| apply possible_digits_shape9].
      rewrite Hnone in He by assumption. discriminate He. }
    cbn [one_stage]. unfold one_stage_body. rewrite Hout, orb_false_r, Hfinal.
    destruct (is_board_failure b); reflexivity.
Qed.

Lemma complete_board_step_witness :
  (forall r c, (r < 9)%nat -> (c < 9)%nat ->
               entry (possible_digits nine_twice_board) r c = None) /\
  find_least_options (possible_digits nine_twice_board) = None /\
  one_stage 1 nine_twice_board (possible_digits nine_twice_board) =
    Some (if is_board_failure nine_twice_board
          then Outcome FINISH_FAILURE (Some (-1, -1)) nine_twice_board
                       (possible_digits nine_twice_board)
          else Outcome FINISH_SUCCESS (Some (10, 10)) nine_twice_board
                       (possible_digits nine_twice_board)).
Proof.
  pose proof (complete_board_step nine_twice_board 0) as Hthm.
  apply Hthm.
  - split; [reflexivity | repeat constructor].
  - vm_compute. reflexivity.
Defined.

(** ** What a step does to the grids *)

Lemma one_stage_body_stops (b : board) (p : possibilities) :
  stops b p = true -> one_stage_body b p = Return (verdict b p).
Proof.
  unfold stops, one_stage_body, verdict.
  destruct (is_board_failure b || is_out_of_options p); [reflexivity |].
  destruct (check_final_board b); [reflexivity |].
  destruct (possible_continuation p); [discriminate | reflexivity].
Qed.

Lemma one_stage_body_goes (b : board) (p : possibilities) :
  shape9 b -> shape9 p -> stops b p = false ->
  exists b' p',
    one_stage_body b p = Again b' p' /\ shape9 b' /\ shape9 p' /\
    stops b' p' = true /\
    forall r c, (r < 9)%nat -> (c < 9)%nat ->
                entry p' r c = cleared (entry p r c) /\
                cell b' r c = filled (entry p r c) (cell b r c).
Proof.
  intros Hb Hp Hstops.
  destruct (fill_singles_spec b p Hb Hp) as (b' & p' & Hfill & Hb' & Hp' & Hnone & Hcells).
  exists b', p'. split; [| split; [exact Hb' | split; [exact Hp' | split; [| exact Hcells]]]].
  - unfold stops in Hstops. unfold one_stage_body. rewrite Hfill.
    destruct (is_board_failure b || is_out_of_options p); [discriminate |].
    destruct (check_final_board b); [discriminate |].
    destruct (possible_continuation p); [reflexivity | discriminate].
  - unfold stops. rewrite Hnone. apply orb_true_r.
Qed.

Lemma one_stage_grids (fuel : nat) (b : board) (p : possibilities) o :
  shape9 b -> shape9 p -> one_stage fuel b p = Some o ->
  if stops b p then o = verdict b p
  else exists b' p',
      o = verdict b' p' /\ shape9 b' /\ shape9 p' /\ stops b' p' = true /\
      forall r c, (r < 9)%nat -> (c < 9)%nat ->
                  entry p' r c = cleared (entry p r c) /\
                  cell b' r c = filled (entry p r c) (cell b r c).
Proof.
  intros Hb Hp Hrun. destruct fuel as [| fuel]; [discriminate |].
  cbn [one_stage] in Hrun. destruct (stops b p) eqn:Hstops.
  - rewrite (one_stage_body_stops b p Hstops) in Hrun. congruence.
  - destruct (one_stage_body_goes b p Hb Hp Hstops)
      as (b' & p' & Hbody & Hb' & Hp' & Hstops' & Hcells).
    rewrite Hbody in Hrun. destruct fuel as [| fuel]; [discriminate |].
    cbn [one_stage] in Hrun. rewrite (one_stage_body_stops b' p' Hstops') in Hrun.
    exists b', p'. split; [congruence |]. auto.
Qed.

(** X8.  A step on 9x9 grids either returns at once, both grids untouched, or
    makes exactly one filling pass and then returns: every entry with a
    single candidate is cleared and its digit written to the board, every
    other entry and cell is as before.  What it returns is the verdict on
    the grids it leaves: failure, else completion, else the branch cell. *)
Theorem one_stage_effect (fuel : nat) (b : board) (p : possibilities) (o : outcome) :
  shape9 b -> shape9 p -> one_stage fuel b p = Some o ->
  o = verdict (out_board o) (out_poss o) /\
  shape9 (out_board o) /\ shape9 (out_poss o) /\
  if stops b p
  then out_board o = b /\ out_poss o = p
  else forall r c, (r < 9)%nat -> (c < 9)%nat ->
                   entry (out_poss o) r c = cleared (entry p r c) /\
                   cell (out_board o) r c = filled (entry p r c) (cell b r c).
Proof.
  intros Hb Hp Hrun.
  assert (forall b1 p1, out_board (verdict b1 p1) = b1 /\ out_poss (verdict b1 p1) = p1)
    as Hgrids.
  { intros b1 p1. unfold verdict.
    destruct (is_board_failure b1 || is_out_of_options p1); [split; reflexivity |].
    destruct (check_final_board b1); split; reflexivity. }
  pose proof (one_stage_grids fuel b p o Hb Hp Hrun) as Hcase.
  destruct (stops b p).
  - subst o. destruct (Hgrids b p) as [-> ->]. auto.
  - destruct Hcase as (b' & p' & -> & Hb' & Hp' & _ & Hcells).
    destruct (Hgrids b' p') as [-> ->]. auto.
Qed.

Lemma one_stage_effect_witness :
  Outcome NOT_FINISH (Some (0, 0)) empty_board (possible_digits empty_board) =
    verdict empty_board (possible_digits empty_board) /\
  shape9 empty_board /\ shape9 (possible_digits empty_board) /\
  if stops empty_board (possible_digits empty_board)
  then empty_board = empty_board /\ possible_digits empty_board = possible_digits empty_board
  else forall r c, (r < 9)%nat -> (c < 9)%nat ->
                   entry (possible_digits empty_board) r c =
                     cleared (entry (possible_digits empty_board) r c) /\
                   cell empty_board r c =
                     filled (entry (possible_digits empty_board) r c) (cell empty_board r c).
Proof.
  pose proof (one_stage_effect 1 empty_board (possible_digits empty_board)
                (Outcome NOT_FINISH (Some (0, 0)) empty_board
                         (possible_digits empty_board))) as Hthm.
  apply Hthm.
  - split; [reflexivity | repeat constructor].
  - apply possible_digits_shape9.
  - vm_compute. reflexivity.
Defined.

(** ** A step from fresh candidates *)

Lemma forallb_false_exists {B : Type} (f : B -> bool) (l : list B) :
  forallb f l = false -> exists x, In x l /\ f x = false.
Proof.
  induction l as [| a l IH]; cbn [forallb]; [discriminate |].
  destruct (f a) eqn:Ha.
  - intros Hrest. destruct (IH Hrest) as (x & Hx & Hfx). exists x. split; [right |]; assumption.
  - intros _. exists a. split; [left; reflexivity | exact Ha].
Qed.

Lemma check_final_board_false (b : board) :
  shape9 b -> check_final_board b = false ->
  exists r c, (r < 9)%nat /\ (c < 9)%nat /\ cell b r c = -1.
Proof.
  intros Hb Hfinal. apply forallb_false_exists in Hfinal as (x & Hin & Hx).
  apply concat_lookup in Hin as (r & c & Hr & Hc & <-); [| exact Hb].
  apply negb_false_iff, Z.eqb_eq in Hx. exists r, c. auto.
Qed.

(** Cell by cell, the grids a step leaves when it starts from the
    candidates of the board: an open cell still carries the candidates
    computed at the start; a filled cell has no entry and either held its
    value before or was open with that value as its only candidate. *)
Lemma fresh_step_cells (fuel : nat) (b : board) o :
  shape9 b -> one_stage fuel b (possible_digits b) = Some o ->
  forall r c, (r < 9)%nat -> (c < 9)%nat ->
    (cell (out_board o) r c = -1 /\ cell b r c = -1 /\
     entry (out_poss o) r c = Some (options b (r, c)))
    \/
    (cell (out_board o) r c <> -1 /\ entry (out_poss o) r c = None /\
     ((cell b r c <> -1 /\ cell (out_board o) r c = cell b r c) \/
      (cell b r c = -1 /\ options b (r, c) = [cell (out_board o) r c]))).
Proof.
  intros Hb Hrun r c Hr Hc.
  pose proof (one_stage_grids fuel b (possible_digits b) o Hb
                              (possible_digits_shape9 b) Hrun) as Hcase.
  assert (forall b1 p1, out_board (verdict b1 p1) = b1 /\ out_poss (verdict b1 p1) = p1)
    as Hgrids.
  { intros b1 p1. unfold verdict.
    destruct (is_board_failure b1 || is_out_of_options p1); [split; reflexivity |].
    destruct (check_final_board b1); split; reflexivity. }
  pose proof (entry_possible_digits b r c Hr Hc) as Hentry.
  destruct (stops b (possible_digits b)).
  - subst o. destruct (Hgrids b (possible_digits b)) as [-> ->].
    rewrite Hentry. destruct (Z.eqb_spec (cell b r c) (-1)) as [Hopen | Hfilled].
    + left. auto.
    + right. auto.
  - destruct Hcase as (b' & p' & -> & _ & _ & _ & Hcells).
    destruct (Hgrids b' p') as [-> ->].
    destruct (Hcells r c Hr Hc) as [He Hc']. rewrite He, Hc', Hentry.
    destruct (Z.eqb_spec (cell b r c) (-1)) as [Hopen | Hfilled].
    + unfold cleared. destruct (has_len 1 (Some (options b (r, c)))) eqn:Hsingle.
      * apply has_len_1 in Hsingle as [x Hx].
        assert (options b (r, c) = [x]) as Hopts by congruence.
        assert (In x (options b (r, c))) as Hin by (rewrite Hopts; left; reflexivity).
        apply options_open_In in Hin as [Hd _]; [| assumption..].
        right. rewrite Hopts. cbn [filled]. split; [lia |]. split; [reflexivity |].
        right. auto.
      * left. rewrite filled_not_single by exact Hsingle. auto.
    + right. cbn [cleared filled has_len]. split; [exact Hfilled |].
      split; [reflexivity |]. left. auto.
Qed.

Lemma verdict_grids (b : board) (p : possibilities) :
  out_board (verdict b p) = b /\ out_poss (verdict b p) = p.
Proof.
  unfold verdict. destruct (is_board_failure b || is_out_of_options p);
    [split; reflexivity |].
  destruct (check_final_board b); split; reflexivity.
Qed.

Lemma one_stage_verdict (fuel : nat) (b : board) (p : possibilities) o :
  shape9 b -> shape9 p -> one_stage fuel b p = Some o ->
  o = verdict (out_board o) (out_poss o) /\
  stops (out_board o) (out_poss o) = true /\
  shape9 (out_board o) /\ shape9 (out_poss o).
Proof.
  intros Hb Hp Hrun. pose proof (one_stage_grids fuel b p o Hb Hp Hrun) as Hcase.
  destruct (stops b p) eqn:Hstops.
  - subst o. destruct (verdict_grids b p) as [-> ->]. auto.
  - destruct Hcase as (b' & p' & -> & Hb' & Hp' & Hstops' & _).
    destruct (verdict_grids b' p') as [-> ->]. auto.
Qed.

Lemma verdict_not_finish (b : board) (p : possibilities) :
  out_state (verdict b p) = NOT_FINISH ->
  is_board_failure b = false /\ is_out_of_options p = false /\
  check_final_board b = false /\ out_loc (verdict b p) = find_least_options p.
Proof.
  unfold verdict. destruct (is_board_failure b || is_out_of_options p) eqn:Hfail;
    [discriminate |].
  apply orb_false_iff in Hfail as [Hf1 Hf2].
  destruct (check_final_board b); [discriminate |]. auto.
Qed.

(** X9.  A step started from the candidates of the board never touches a clue:
    a filled cell keeps its value, an open cell stays open or receives the
    only candidate it had, and afterwards the entries that are [None] are
    exactly those of the filled cells. *)
Theorem step_keeps_clues (fuel : nat) (b : board) (o : outcome) (r c : nat) :
  shape9 b -> one_stage fuel b (possible_digits b) = Some o ->
  (r < 9)%nat -> (c < 9)%nat ->
  (cell b r c <> -1 -> cell (out_board o) r c = cell b r c) /\
  (cell b r c = -1 ->
   cell (out_board o) r c = -1 \/ options b (r, c) = [cell (out_board o) r c]) /\
  (entry (out_poss o) r c = None <-> cell (out_board o) r c <> -1).
Proof.
  intros Hb Hrun Hr Hc.
  destruct (fresh_step_cells fuel b o Hb Hrun r c Hr Hc)
    as [(Hopen' & Hopen & He) | (Hfilled' & He & [[Hclue Hsame] | [Hopen Honly]])].
  - split; [intros Hclue; contradiction |]. split; [intros _; left; exact Hopen' |].
    rewrite He. split; [discriminate | intros Hne; contradiction].
  - split; [intros _; exact Hsame |]. split; [intros Hopen; contradiction |].
    split; [intros _; exact Hfilled' | intros _; exact He].
  - split; [intros Hclue; contradiction |]. split; [intros _; right; exact Honly |].
    split; [intros _; exact Hfilled' | intros _; exact He].
Qed.

Lemma step_keeps_clues_witness :
  (cell stale_board 0 8 <> -1 ->
   cell (assign stale_board 0 8 2) 0 8 = cell stale_board 0 8) /\
  (cell stale_board 0 8 = -1 ->
   cell (assign stale_board 0 8 2) 0 8 = -1 \/
   options stale_board (0%nat, 8%nat) = [cell (assign stale_board 0 8 2) 0 8]) /\
  (entry (assign (possible_digits stale_board) 0 8 None) 0 8 = None <->
   cell (assign stale_board 0 8 2) 0 8 <> -1).
Proof.
  pose proof (step_keeps_clues
                2 stale_board
                (Outcome NOT_FINISH (Some (0, 7)) (assign stale_board 0 8 2)
                         (assign (possible_digits stale_board) 0 8 None))
                0 8) as Hthm.
  apply Hthm.
  - split; [reflexivity | repeat constructor].
  - vm_compute. reflexivity.
  - lia.
  - lia.
Defined.

(** The branch cell reported after a step from fresh candidates. *)
Lemma fresh_step_choice (fuel : nat) (b : board) (o : outcome) :
  shape9 b -> one_stage fuel b (possible_digits b) = Some o ->
  out_state o = NOT_FINISH ->
  exists r c,
    out_loc o = Some (Z.of_nat r, Z.of_nat c) /\ (r < 9)%nat /\ (c < 9)%nat /\
    cell (out_board o) r c = -1 /\
    entry (out_poss o) r c = Some (options b (r, c)) /\
    (2 <= length (options b (r, c)) <= 9)%nat.
Proof.
  intros Hb Hrun Hstate.
  destruct (one_stage_verdict fuel b (possible_digits b) o Hb
                              (possible_digits_shape9 b) Hrun)
    as (Hverdict & Hstops & Hbo & Hpo).
  rewrite Hverdict in Hstate.
  destruct (verdict_not_finish _ _ Hstate) as (Hfail & Hout & Hfinal & Hloc).
  rewrite <- Hverdict in Hloc.
  assert (possible_continuation (out_poss o) = false) as Hcont.
  { unfold stops in Hstops. rewrite Hfail, Hout, Hfinal in Hstops.
    cbn [orb] in Hstops. apply negb_true_iff in Hstops. exact Hstops. }
  pose proof (fresh_step_cells fuel b o Hb Hrun) as Hcells.
  (* an open cell carries between two and nine candidates *)
  assert (forall r c opts, (r < 9)%nat -> (c < 9)%nat ->
                           entry (out_poss o) r c = Some opts ->
                           cell (out_board o) r c = -1 /\ opts = options b (r, c) /\
                           (2 <= length opts <= 9)%nat) as Hopen.
  { intros r c opts Hr Hc He.
    destruct (Hcells r c Hr Hc) as [(Hopen' & _ & He') | (_ & He' & _)];
      [| congruence].
    assert (opts = options b (r, c)) as -> by congruence.
    split; [exact Hopen' |]. split; [reflexivity |].
    assert (length (options b (r, c)) <> 0)%nat as Hne0.
    { intros Hzero. destruct (options b (r, c)); [| discriminate].
      assert (is_out_of_options (out_poss o) = true)
        by (apply is_out_of_options_true; [exact Hpo | eauto]).
      congruence. }
    assert (length (options b (r, c)) <> 1)%nat as Hne1.
    { intros Hone.
      assert (possible_continuation (out_poss o) = true).
      { apply possible_continuation_true; [exact Hpo |]. exists r, c.
        rewrite He. cbn [has_len]. rewrite Hone. auto. }
      congruence. }
    assert (length (options b (r, c)) <= 9)%nat as Hle.
    { unfold options. destruct (negb (cell b r c =? -1)); [cbn; lia |].
      etransitivity; [apply filter_length_le | apply option_in_part_length]. }
    lia. }
  destruct (check_final_board_false _ Hbo Hfinal) as (r1 & c1 & Hr1 & Hc1 & Hopen1).
  destruct (Hcells r1 c1 Hr1 Hc1) as [(_ & _ & He1) | (Hfilled & _)]; [| contradiction].
  destruct (Hopen r1 c1 _ Hr1 Hc1 He1) as (_ & _ & Hlen1).
  pose proof (find_least_options_cases (out_poss o)) as Hleast.
  destruct (find_least_options (out_poss o)) as [[zr zc] |] eqn:Hfound.
  - destruct Hleast as (r & c & opts & -> & -> & Hr & Hc & He & _).
    destruct (Hopen r c opts Hr Hc He) as (Hopen' & -> & Hlen).
    exists r, c. split; [exact Hloc |]. split; [exact Hr |]. split; [exact Hc |].
    split; [exact Hopen' |]. split; [exact He | exact Hlen].
  - pose proof (Hleast r1 c1 _ Hr1 Hc1 He1). lia.
Qed.

(** X10.  When a step started from the candidates of the board asks for a
    choice, the coordinate it names is inside the grid, the cell there is
    still open, and the list offered for it is the one computed from the
    starting board, with between two and nine digits; so [fill_board]
    reaches its prompt with that list, the cell showing the placeholder. *)
Theorem needs_choice_well_formed (fuel : nat) (b : board) (o : outcome) :
  shape9 b -> one_stage fuel b (possible_digits b) = Some o ->
  out_state o = NOT_FINISH ->
  exists r c,
    out_loc o = Some (Z.of_nat r, Z.of_nat c) /\ (r < 9)%nat /\ (c < 9)%nat /\
    cell (out_board o) r c = -1 /\
    entry (out_poss o) r c = Some (options b (r, c)) /\
    (2 <= length (options b (r, c)) <= 9)%nat /\
    resume fuel b (possible_digits b) =
      Some (Choosing (assign (out_board o) r c 0) (out_poss o) r c (options b (r, c))).
Proof.
  intros Hb Hrun Hstate.
  destruct (fresh_step_choice fuel b o Hb Hrun Hstate)
    as (r & c & Hloc & Hr & Hc & Hopen & He & Hlen).
  exists r, c. split; [exact Hloc |]. split; [exact Hr |]. split; [exact Hc |].
  split; [exact Hopen |]. split; [exact He |]. split; [exact Hlen |].
  unfold resume. rewrite Hrun, Hstate, Hloc, !Nat2Z.id, He. reflexivity.
Qed.

Lemma needs_choice_well_formed_witness :
  exists r c,
    Some (0, 7) = Some (Z.of_nat r, Z.of_nat c) /\ (r < 9)%nat /\ (c < 9)%nat /\
    cell (assign stale_board 0 8 2) r c = -1 /\
    entry (assign (possible_digits stale_board) 0 8 None) r c =
      Some (options stale_board (r, c)) /\
    (2 <= length (options stale_board (r, c)) <= 9)%nat /\
    resume 2 stale_board (possible_digits stale_board) =
      Some (Choosing (assign (assign stale_board 0 8 2) r c 0)
                     (assign (possible_digits stale_board) 0 8 None) r c
                     (options stale_board (r, c))).
Proof.
  pose proof (needs_choice_well_formed
                2 stale_board
                (Outcome NOT_FINISH (Some (0, 7)) (assign stale_board 0 8 2)
                         (assign (possible_digits stale_board) 0 8 None))) as Hthm.
  apply Hthm.
  - split; [reflexivity | repeat constructor].
  - vm_compute. reflexivity.
  - reflexivity.
Defined.

(** ** Immediate outcomes *)

(** X11.  From the candidates of the board the step returns [FINISH_FAILURE]
    with both grids untouched exactly when a value between 0 and 8 stands
    twice in a unit or some open cell has no candidate left. *)
Theorem contradiction_fails_at_once (b : board) (fuel : nat) :
  shape9 b ->
  (duplicated_below_nine b \/
   exists r c, (r < 9)%nat /\ (c < 9)%nat /\ cell b r c = -1 /\ options b (r, c) = [])
  <->
  one_stage (S fuel) b (possible_digits b) =
    Some (Outcome FINISH_FAILURE (Some (-1, -1)) b (possible_digits b)).
Proof.
  intros Hb.
  assert (is_board_failure b || is_out_of_options (possible_digits b) = true <->
          duplicated_below_nine b \/
          exists r c, (r < 9)%nat /\ (c < 9)%nat /\ cell b r c = -1 /\
                      options b (r, c) = []) as Htest.
  { rewrite orb_true_iff, is_board_failure_true, out_of_options_fresh by exact Hb.
    reflexivity. }
  rewrite <- Htest. split.
  - intros Hfail. cbn [one_stage]. unfold one_stage_body. rewrite Hfail. reflexivity.
  - intros Hrun.
    pose proof (one_stage_grids _ _ _ _ Hb (possible_digits_shape9 b) Hrun) as Hcase.
    destruct (stops b (possible_digits b)) eqn:Hstops.
    + unfold verdict in Hcase.
      destruct (is_board_failure b || is_out_of_options (possible_digits b));
        [reflexivity |].
      destruct (check_final_board b); discriminate Hcase.
    + exfalso. destruct Hcase as (b' & p' & Hverdict & _ & _ & _ & Hcells).
      assert (p' = possible_digits b) as ->.
      { pose proof (f_equal out_poss Hverdict) as Hp.
        rewrite (proj2 (verdict_grids b' p')) in Hp. cbn [out_poss] in Hp. congruence. }
      assert (possible_continuation (possible_digits b) = true) as Hcont.
      { unfold stops in Hstops. apply orb_false_iff in Hstops as [_ Hc].
        apply negb_false_iff in Hc. exact Hc. }
      apply possible_continuation_true in Hcont as (r & c & Hr & Hc & Hsingle);
        [| apply possible_digits_shape9].
      destruct (Hcells r c Hr Hc) as [He _]. unfold cleared in He.
      rewrite Hsingle in He. rewrite He in Hsingle. discriminate Hsingle.
Qed.

Lemma contradiction_fails_at_once_witness :
  (duplicated_below_nine stale_board \/
   exists r c, (r < 9)%nat /\ (c < 9)%nat /\ cell stale_board r c = -1 /\
               options stale_board (r, c) = [])
  <->
  one_stage 1 stale_board (possible_digits stale_board) =
    Some (Outcome FINISH_FAILURE (Some (-1, -1)) stale_board
                  (possible_digits stale_board)).
Proof.
  apply (contradiction_fails_at_once stale_board 0).
  split; [reflexivity | repeat constructor].
Defined.

(** X12.  When a single cell is left open on a board that passes the validity
    check and that cell has exactly one candidate, the step writes it and
    returns [FINISH_SUCCESS]; no other cell changes. *)
Theorem last_cell_completion (b : board) (r c : nat) (x : Z) (fuel : nat) :
  shape9 b -> (r < 9)%nat -> (c < 9)%nat ->
  cell b r c = -1 ->
  (forall r' c', (r' < 9)%nat -> (c' < 9)%nat -> (r', c') <> (r, c) ->
                 cell b r' c' <> -1) ->
  is_board_failure b = false ->
  options b (r, c) = [x] ->
  one_stage (S (S fuel)) b (possible_digits b) =
    Some (Outcome FINISH_SUCCESS (Some (10, 10))
                  (assign b r c x) (assign (possible_digits b) r c None)).
Proof.
  intros Hb Hr Hc Hopen Hrest Hvalid Hsingle.
  set (p := possible_digits b).
  assert (shape9 p) as Hp by apply possible_digits_shape9.
  assert (entry p r c = Some [x]) as Hentry.
  { unfold p. rewrite entry_possible_digits, Hopen, Hsingle by assumption. reflexivity. }
  assert (forall r' c', (r' < 9)%nat -> (c' < 9)%nat -> (r', c') <> (r, c) ->
                        entry p r' c' = None) as Hothers.
  { intros r' c' Hr' Hc' Hne. unfold p. rewrite entry_possible_digits by assumption.
    pose proof (Hrest r' c' Hr' Hc' Hne).
    destruct (Z.eqb_spec (cell b r' c') (-1)); [contradiction | reflexivity]. }
  assert (In x (options b (r, c))) as Hin by (rewrite Hsingle; left; reflexivity).
  assert (stops b p = false) as Hstops.
  { unfold stops. rewrite Hvalid.
    assert (is_out_of_options p = false) as ->.
    { destruct (is_out_of_options p) eqn:Hout; [| reflexivity].
      apply is_out_of_options_true in Hout as (r' & c' & Hr' & Hc' & He); [| exact Hp].
      destruct (decide ((r', c') = (r, c))) as [Heq | Hne].
      - inversion Heq; subst. congruence.
      - rewrite Hothers in He by assumption. discriminate He. }
    assert (check_final_board b = false) as ->.
    { destruct (check_final_board b) eqn:Hfinal; [| reflexivity].
      exfalso. exact (proj1 (check_final_board_true b Hb) Hfinal r c Hr Hc Hopen). }
    assert (possible_continuation p = true) as ->.
    { apply possible_continuation_true; [exact Hp |]. exists r, c.
      rewrite Hentry. auto. }
    reflexivity. }
  destruct (one_stage_body_goes b p Hb Hp Hstops)
    as (b' & p' & Hbody & Hb' & Hp' & _ & Hcells).
  assert (b' = assign b r c x) as ->.
  { apply grid_ext; [exact Hb' | apply assign_shape9, Hb |].
    intros r' c' Hr' Hc'. destruct (Hcells r' c' Hr' Hc') as [_ Hcell].
    fold (cell b' r' c'). rewrite Hcell.
    destruct (decide ((r', c') = (r, c))) as [Heq | Hne].
    - inversion Heq; subst. rewrite Hentry, assign_same by assumption. reflexivity.
    - rewrite Hothers, assign_other by assumption. reflexivity. }
  assert (p' = assign p r c None) as ->.
  { apply grid_ext; [exact Hp' | apply assign_shape9, Hp |].
    intros r' c' Hr' Hc'. destruct (Hcells r' c' Hr' Hc') as [He _].
    fold (entry p' r' c'). rewrite He.
    destruct (decide ((r', c') = (r, c))) as [Heq | Hne].
    - inversion Heq; subst. rewrite Hentry, assign_same by assumption. reflexivity.
    - rewrite Hothers, assign_other by assumption.
      fold (entry p r' c'). rewrite Hothers by assumption. reflexivity. }
  assert (forall r' c', (r' < 9)%nat -> (c' < 9)%nat ->
                        entry (assign p r c None) r' c' = None) as Hcleared.
  { intros r' c' Hr' Hc'. unfold entry.
    destruct (decide ((r', c') = (r, c))) as [Heq | Hne].
    - inversion Heq; subst. apply assign_same; assumption.
    - rewrite assign_other by assumption. apply Hothers; assumption. }
  cbn [one_stage]. rewrite Hbody. unfold one_stage_body.
  assert (is_board_failure (assign b r c x) = false) as ->.
  { destruct (is_board_failure (assign b r c x)) eqn:Hfail; [| reflexivity].
    apply is_board_failure_true in Hfail; [| apply assign_shape9, Hb].
    destruct Hfail
      as (r1 & c1 & r2 & c2 & Hr1 & Hc1 & Hr2 & Hc2 & Hne & Hunit & Heq & Hval).
    destruct (assign_candidate_pair b r c x r1 c1 r2 c2) as [H1 H2]; try assumption.
    assert (is_board_failure b = true) as Hyes.
    { apply is_board_failure_true; [exact Hb |].
      unfold cell in Heq, Hval. rewrite !assign_other in Heq by assumption.
      rewrite assign_other in Hval by assumption.
      exists r1, c1, r2, c2. do 4 (split; [assumption |]).
      split; [exact Hne |]. split; [exact Hunit |]. split; assumption. }
    congruence. }
  assert (is_out_of_options (assign p r c None) = false) as ->.
  { destruct (is_out_of_options (assign p r c None)) eqn:Hout; [| reflexivity].
    apply is_out_of_options_true in Hout as (r' & c' & Hr' & Hc' & He);
      [| apply assign_shape9, Hp].
    rewrite Hcleared in He by assumption. discriminate He. }
  assert (check_final_board (assign b r c x) = true) as ->.
  { apply check_final_board_true; [apply assign_shape9, Hb |].
    intros r' c' Hr' Hc'. unfold cell.
    destruct (decide ((r', c') = (r, c))) as [Heq | Hne].
    - inversion Heq; subst. rewrite assign_same by assumption.
      apply options_open_In in Hin as [Hd _]; [lia | assumption..].
    - rewrite assign_other by assumption. apply Hrest; assumption. }
  reflexivity.
Qed.

Lemma last_cell_completion_witness :
  one_stage 2 one_open_board (possible_digits one_open_board) =
    Some (Outcome FINISH_SUCCESS (Some (10, 10))
                  (assign one_open_board 0 0 5)
                  (assign (possible_digits one_open_board) 0 0 None)).
Proof.
  apply (last_cell_completion one_open_board 0 0 5 0).
  - split; [reflexivity | repeat constructor].
  - lia.
  - lia.
  - reflexivity.
  - intros r' c' Hr' Hc' Hne.
    do 9 (destruct r' as [| r']; [do 9 (destruct c' as [| c'];
      [first [exfalso; apply Hne; reflexivity | vm_compute; discriminate] |]); lia |]).
    lia.
  - vm_compute. reflexivity.
  - vm_compute. reflexivity.
Defined.

(** ** The interactive loop as a whole *)

Lemma resume_stopped (fuel : nat) (b : board) (p : possibilities) st b' :
  resume fuel b p = Some (Stopped st b') ->
  exists o, one_stage fuel b p = Some o /\ st = out_state o /\ b' = out_board o /\
            st <> NOT_FINISH.
Proof.
  unfold resume. destruct (one_stage fuel b p) as [o |]; [| discriminate].
  intros Hres. exists o. split; [reflexivity |].
  destruct (out_state o) eqn:Hstate.
  - destruct (out_loc o) as [[zr zc] |]; [| discriminate].
    destruct (entry (out_poss o) (Z.to_nat zr) (Z.to_nat zc)); discriminate.
  - injection Hres as <- <-. split; [reflexivity |]. split; [reflexivity | discriminate].
  - injection Hres as <- <-. split; [reflexivity |]. split; [reflexivity | discriminate].
Qed.

Lemma drive_final (fuel : nat) (s : session) (lines : list (option Z)) st b' :
  (forall st0 b0, s = Stopped st0 b0 -> final_ok st0 b0) ->
  drive fuel s lines = Some (st, b') -> final_ok st b'.
Proof.
  revert s lines. induction fuel as [| fuel IH]; intros s lines Hs; [discriminate |].
  cbn [drive]. destruct s as [b p | b p r c opts | st0 b0 |].
  - destruct (resume (S fuel) b p) as [s' |] eqn:Hres; [| discriminate].
    apply IH. intros st0 b0 ->.
    apply resume_stopped in Hres as (o & Hrun & -> & -> & Hne).
    split; [exact Hne |]. intros Hsuccess.
    pose proof (one_stage_terminal _ _ _ _ Hrun) as Hterm.
    unfold terminal_ok in Hterm. rewrite Hsuccess in Hterm.
    destruct Hterm as (Hfail & _ & Hfinal). auto.
  - destruct lines as [| line lines]; [discriminate |].
    apply IH. intros st0 b0 Heq. unfold reply in Heq.
    destruct line as [choice |]; [| discriminate].
    destruct (negb (mem choice opts)); discriminate.
  - intros Heq. injection Heq as <- <-. apply (Hs st0 b0). reflexivity.
  - discriminate.
Qed.

(** X13.  [fill_board] returns [FINISH_SUCCESS] or [FINISH_FAILURE], never
    [NOT_FINISH]; when it returns [FINISH_SUCCESS] the board it leaves has
    no empty cell and passes the validity check. *)
Theorem fill_board_final (fuel : nat) (b : board) (p : possibilities)
        (lines : list (option Z)) (st : state) (b' : board) :
  fill_board fuel b p lines = Some (st, b') ->
  (st = FINISH_SUCCESS \/ st = FINISH_FAILURE) /\
  (st = FINISH_SUCCESS -> check_final_board b' = true /\ is_board_failure b' = false).
Proof.
  intros Hrun. unfold fill_board in Hrun.
  assert (final_ok st b') as [Hne Hsuccess].
  { apply (drive_final fuel (Running b p) lines); [| exact Hrun].
    intros st0 b0 Heq. discriminate Heq. }
  split; [| exact Hsuccess].
  destruct st; [contradiction | left; reflexivity | right; reflexivity].
Qed.

Lemma fill_board_final_witness :
  (FINISH_SUCCESS = FINISH_SUCCESS \/ FINISH_SUCCESS = FINISH_FAILURE) /\
  (FINISH_SUCCESS = FINISH_SUCCESS ->
   check_final_board (assign one_open_board 0 0 5) = true /\
   is_board_failure (assign one_open_board 0 0 5) = false).
Proof.
  pose proof (fill_board_final 2 one_open_board (possible_digits one_open_board) []
                               FINISH_SUCCESS (assign one_open_board 0 0 5)) as Hthm.
  apply Hthm. vm_compute. reflexivity.
Defined.

Lemma step_keeps (fuel : nat) (b0 b : board) o :
  shape9 b -> keeps_clues b0 b ->
  one_stage fuel b (possible_digits b) = Some o ->
  shape9 (out_board o) /\ keeps_clues b0 (out_board o).
Proof.
  intros Hb Hclues Hrun.
  split; [apply (one_stage_shape fuel b (possible_digits b) o Hb
                                 (possible_digits_shape9 b) Hrun) |].
  intros r c Hr Hc Hclue. pose proof (Hclues r c Hr Hc Hclue) as Hsame.
  destruct (fresh_step_cells fuel b o Hb Hrun r c Hr Hc)
    as [(_ & Hopen & _) | (_ & _ & [[_ Hkept] | [Hopen _]])]; congruence.
Qed.

Lemma resume_keeps (fuel : nat) (b0 b : board) (p : possibilities) s' :
  session_keeps b0 (Running b p) ->
  resume fuel b p = Some s' -> session_keeps b0 s'.
Proof.
  intros (Hb & -> & Hclues). unfold resume.
  destruct (one_stage fuel b (possible_digits b)) as [o |] eqn:Hrun; [| discriminate].
  destruct (step_keeps fuel b0 b o Hb Hclues Hrun) as [Hbo Hclues'].
  destruct (out_state o) eqn:Hstate.
  - destruct (fresh_step_choice fuel b o Hb Hrun Hstate)
      as (r & c & Hloc & Hr & Hc & Hopen & He & _).
    rewrite Hloc, !Nat2Z.id, He. intros Heq. injection Heq as <-.
    assert (cell b0 r c = -1) as Hopen0.
    { destruct (Z.eq_dec (cell b0 r c) (-1)) as [Hyes | Hno]; [exact Hyes |].
      pose proof (Hclues' r c Hr Hc Hno). congruence. }
    cbn [session_keeps]. split; [apply assign_shape9, Hbo |].
    split; [| auto].
    intros r' c' Hr' Hc' Hclue. unfold cell.
    rewrite assign_other by (intros Heq; inversion Heq; subst; contradiction).
    apply Hclues'; assumption.
  - intros Heq. injection Heq as <-. cbn [session_keeps]. auto.
  - intros Heq. injection Heq as <-. cbn [session_keeps]. auto.
Qed.

Lemma reply_keeps (b0 b : board) (p : possibilities) r c opts line :
  session_keeps b0 (Choosing b p r c opts) ->
  session_keeps b0 (reply b p r c opts line).
Proof.
  intros Hs. pose proof Hs as (Hb & Hclues & Hr & Hc & Hopen0). unfold reply.
  destruct line as [choice |]; [| exact Hs].
  destruct (negb (mem choice opts)); [exact Hs |].
  cbn [session_keeps]. split; [apply assign_shape9, Hb |]. split; [reflexivity |].
  intros r' c' Hr' Hc' Hclue. unfold cell.
  rewrite assign_other by (intros Heq; inversion Heq; subst; contradiction).
  apply Hclues; assumption.
Qed.

Lemma drive_keeps (fuel : nat) (b0 : board) (s : session) (lines : list (option Z)) st b' :
  session_keeps b0 s -> drive fuel s lines = Some (st, b') ->
  shape9 b' /\ keeps_clues b0 b'.
Proof.
  revert s lines. induction fuel as [| fuel IH]; intros s lines Hs; [discriminate |].
  cbn [drive]. destruct s as [b p | b p r c opts | st0 b1 |].
  - destruct (resume (S fuel) b p) as [s' |] eqn:Hres; [| discriminate].
    apply IH. exact (resume_keeps _ _ _ _ _ Hs Hres).
  - destruct lines as [| line lines]; [discriminate |].
    apply IH. apply reply_keeps, Hs.
  - intros Heq. injection Heq as <- <-. exact Hs.
  - discriminate.
Qed.

(** X14.  Started on a 9x9 board with the candidates computed from it,
    [fill_board] never overwrites a clue: whatever is typed at the prompts,
    every cell that was filled at the start holds the same value in the
    board that is returned, which is again 9x9. *)
Theorem fill_board_keeps_clues (fuel : nat) (b : board) (lines : list (option Z))
        (st : state) (b' : board) :
  shape9 b ->
  fill_board fuel b (possible_digits b) lines = Some (st, b') ->
  shape9 b' /\
  forall r c, (r < 9)%nat -> (c < 9)%nat -> cell b r c <> -1 -> cell b' r c = cell b r c.
Proof.
  intros Hb Hrun. unfold fill_board in Hrun.
  apply (drive_keeps fuel b (Running b (possible_digits b)) lines st b'); [| exact Hrun].
  cbn [session_keeps]. split; [exact Hb |]. split; [reflexivity |].
  intros r c _ _ _. reflexivity.
Qed.

Lemma fill_board_keeps_clues_witness :
  shape9 (assign one_open_board 0 0 5) /\
  forall r c, (r < 9)%nat -> (c < 9)%nat -> cell one_open_board r c <> -1 ->
              cell (assign one_open_board 0 0 5) r c = cell one_open_board r c.
Proof.
  pose proof (fill_board_keeps_clues 2 one_open_board [] FINISH_SUCCESS
                                     (assign one_open_board 0 0 5)) as Hthm.
  apply Hthm.
  - split; [reflexivity | repeat constructor].
  - vm_compute. reflexivity.
Defined.

(** ** Random boards *)

Lemma fills_open_cells_refl (b : board) : fills_open_cells b b.
Proof. intros r c _ _. left. reflexivity. Qed.

Lemma fills_open_cells_trans (b b1 b2 : board) :
  fills_open_cells b b1 -> fills_open_cells b1 b2 -> fills_open_cells b b2.
Proof.
  intros H1 H2 r c Hr Hc.
  destruct (H1 r c Hr Hc) as [Hsame1 | [Hopen1 Hd1]];
    destruct (H2 r c Hr Hc) as [Hsame2 | [Hopen2 Hd2]].
  - left. congruence.
  - right. split; [congruence | exact Hd2].
  - right. split; [exact Hopen1 | rewrite Hsame2; exact Hd1].
  - lia.
Qed.

Lemma fills_open_cells_assign (b : board) r c d :
  shape9 b -> (r < 9)%nat -> (c < 9)%nat -> In d (options b (r, c)) ->
  fills_open_cells b (assign b r c d).
Proof.
  intros Hb Hr Hc Hin r' c' Hr' Hc'. unfold cell.
  destruct (decide ((r', c') = (r, c))) as [Heq | Hne].
  - inversion Heq; subst. right. rewrite assign_same by assumption.
    split; [exact (options_In_open b r c d Hin) |].
    apply options_open_In in Hin as [Hd _];
      [exact Hd | assumption.. | exact (options_In_open b r c d Hin)].
  - left. apply assign_other. exact Hne.
Qed.

(** After a candidate is written, a pair of equal values of one unit was
    such a pair before. *)
Lemma assign_candidate_back (b : board) r c d r1 c1 r2 c2 :
  shape9 b -> (r < 9)%nat -> (c < 9)%nat -> In d (options b (r, c)) ->
  (r1 < 9)%nat -> (c1 < 9)%nat -> (r2 < 9)%nat -> (c2 < 9)%nat ->
  (r1, c1) <> (r2, c2) -> same_unit (r1, c1) (r2, c2) ->
  cell (assign b r c d) r1 c1 = cell (assign b r c d) r2 c2 ->
  cell (assign b r c d) r1 c1 = cell b r1 c1 /\ cell b r1 c1 = cell b r2 c2.
Proof.
  intros Hb Hr Hc Hin Hr1 Hc1 Hr2 Hc2 Hne Hunit Heq.
  destruct (assign_candidate_pair b r c d r1 c1 r2 c2) as [H1 H2]; try assumption.
  unfold cell in *. rewrite !assign_other in Heq by assumption.
  rewrite assign_other by assumption. auto.
Qed.

Lemma assign_candidate_valid (b : board) r c d :
  shape9 b -> (r < 9)%nat -> (c < 9)%nat -> In d (options b (r, c)) ->
  ~ duplicated b -> ~ duplicated (assign b r c d).
Proof.
  intros Hb Hr Hc Hin Hvalid
         (r1 & c1 & r2 & c2 & Hr1 & Hc1 & Hr2 & Hc2 & Hne & Hunit & Heq & Hval).
  destruct (assign_candidate_back b r c d r1 c1 r2 c2) as [Hsame Heq']; try assumption.
  apply Hvalid. exists r1, c1, r2, c2. do 4 (split; [assumption |]).
  split; [exact Hne |]. split; [exact Hunit |]. split; [exact Heq' | congruence].
Qed.

Lemma filter_insert_open (f : Z -> bool) (row : list Z) (c : nat) (d : Z) :
  (c < length row)%nat -> f (row !!! c) = false -> f d = true ->
  length (List.filter f (<[c := d]> row)) = S (length (List.filter f row)).
Proof.
  intros Hc Hold Hnew.
  rewrite insert_take_drop by exact Hc.
  rewrite <- (take_drop_middle row c (row !!! c)) at 3
    by (apply list_lookup_lookup_total_lt; exact Hc).
  rewrite !List.filter_app, !length_app. cbn [List.filter].
  rewrite Hold, Hnew. cbn [length]. lia.
Qed.

Lemma filled_cells_assign (b : board) r c d :
  shape9 b -> (r < 9)%nat -> (c < 9)%nat -> cell b r c = -1 -> d <> -1 ->
  filled_cells (assign b r c d) = S (filled_cells b).
Proof.
  intros Hb Hr Hc Hopen Hd. unfold filled_cells, assign.
  assert (r < length b)%nat as Hlen by (destruct Hb; lia).
  rewrite insert_take_drop by exact Hlen.
  rewrite <- (take_drop_middle b r (b !!! r)) at 4
    by (apply list_lookup_lookup_total_lt; exact Hlen).
  rewrite !concat_app, !concat_cons, !List.filter_app, !length_app.
  rewrite filter_insert_open.
  - lia.
  - rewrite shape9_row by assumption. exact Hc.
  - fold (cell b r c). rewrite Hopen. reflexivity.
  - apply negb_true_iff, Z.eqb_neq. exact Hd.
Qed.

Lemma random_fill_eq fuel rand k N filled positions (b : board) :
  random_fill fuel rand k N filled positions b =
  if negb ((filled <? N)%nat && negb (length positions =? 0)%nat)
  then Some b
  else
    match fuel with
    | O => None
    | S fuel' =>
        let idx := randrange rand k 0 (length positions) in
        let '(r, c) := positions !!! idx in
        let positions' := delete idx positions in
        if cell b r c =? -1
        then
          let opts := options b (r, c) in
          if negb (length opts =? 0)%nat
          then random_fill fuel' rand (k + 2) N (filled + 1) positions'
                           (assign b r c (choice rand (k + 1) opts))
          else random_fill fuel' rand (k + 1) N filled positions' b
        else random_fill fuel' rand (k + 1) N filled positions' b
    end.
Proof. destruct fuel; reflexivity. Qed.

Lemma choice_In (rand : nat -> nat) (k : nat) (opts : list Z) :
  length opts <> 0%nat -> In (choice rand k opts) opts.
Proof.
  intros Hne. unfold choice. apply list_elem_of_In, list_elem_of_lookup_total_2.
  apply Nat.mod_upper_bound. exact Hne.
Qed.

(** The loop, from any state it can be in: it ends within as many
    iterations as positions are left, and the board it leaves is the board
    it started from with [filled' - filled] open cells given one of their
    candidates. *)
Lemma random_fill_spec (fuel : nat) (rand : nat -> nat) :
  forall k N filled positions (b : board),
    shape9 b ->
    (forall r c, In (r, c) positions -> (r < 9)%nat /\ (c < 9)%nat) ->
    (length positions <= fuel)%nat ->
    (filled <= N)%nat ->
    exists b' filled',
      random_fill fuel rand k N filled positions b = Some b' /\
      shape9 b' /\ fills_open_cells b b' /\
      (~ duplicated b -> ~ duplicated b') /\
      (filled <= filled' <= N)%nat /\
      (filled_cells b' + filled = filled_cells b + filled')%nat.
Proof.
  induction fuel as [| fuel IH]; intros k N filled positions b Hb Hpos Hfuel HN;
    rewrite random_fill_eq.
  - assert ((length positions =? 0)%nat = true) as -> by (apply Nat.eqb_eq; lia).
    rewrite andb_false_r. cbn [negb].
    exists b, filled. split; [reflexivity |]. split; [exact Hb |].
    split; [apply fills_open_cells_refl |]. split; [auto |]. lia.
  - destruct (negb ((filled <? N)%nat && negb (length positions =? 0)%nat)) eqn:Hstop.
    + exists b, filled. split; [reflexivity |]. split; [exact Hb |].
      split; [apply fills_open_cells_refl |]. split; [auto |]. lia.
    + apply negb_false_iff, andb_true_iff in Hstop as [Hlt Hnonempty].
      apply Nat.ltb_lt in Hlt. apply negb_true_iff, Nat.eqb_neq in Hnonempty.
      cbv zeta.
      set (idx := randrange rand k 0 (length positions)).
      assert (idx < length positions)%nat as Hidx.
      { unfold idx, randrange. rewrite Nat.sub_0_r. cbn [Nat.add].
        apply Nat.mod_upper_bound. exact Hnonempty. }
      destruct (positions !!! idx) as [r c] eqn:Hat.
      assert (In (r, c) positions) as Hin.
      { rewrite <- Hat. apply list_elem_of_In, list_elem_of_lookup_total_2. exact Hidx. }
      destruct (Hpos r c Hin) as [Hr Hc].
      assert (forall r' c', In (r', c') (delete idx positions) ->
                            (r' < 9)%nat /\ (c' < 9)%nat) as Hpos'.
      { intros r' c' Hin'. apply Hpos.
        apply list_elem_of_In, (list_elem_of_delete_inv _ idx), list_elem_of_In, Hin'. }
      assert (length (delete idx positions) <= fuel)%nat as Hfuel'.
      { assert (is_Some (positions !! idx)) as Hsome
            by (apply lookup_lt_is_Some; exact Hidx).
        rewrite (length_delete positions idx Hsome). lia. }
      destruct (Z.eqb_spec (cell b r c) (-1)) as [Hopen | Hfilled];
        [| apply IH; assumption].
      destruct (length (options b (r, c)) =? 0)%nat eqn:Hempty; cbn [negb];
        [apply IH; assumption |].
      apply Nat.eqb_neq in Hempty.
      pose proof (choice_In rand (k + 1) (options b (r, c)) Hempty) as Hchoice.
      set (d := choice rand (k + 1) (options b (r, c))) in *.
      destruct (IH (k + 2)%nat N (filled + 1)%nat (delete idx positions)
                   (assign b r c d))
        as (b' & filled' & Hrun & Hb' & Hgrow & Hvalid & Hcount & Hcells);
        [apply assign_shape9, Hb | exact Hpos' | exact Hfuel' | lia |].
      exists b', filled'. split; [exact Hrun |]. split; [exact Hb' |].
      split; [| split; [| split; [lia |]]].
      * apply (fills_open_cells_trans b (assign b r c d));
          [apply fills_open_cells_assign; assumption | exact Hgrow].
      * intros Hok. apply Hvalid, assign_candidate_valid; assumption.
      * rewrite filled_cells_assign in Hcells; [lia | assumption.. |].
        apply options_open_In in Hchoice as [Hd _]; [lia | assumption..].
Qed.

(** X15.  [create_random_board] always returns.  The board it leaves is the
    board it was given with at most 19 open cells filled, each with a digit
    between 1 and 9; no filled cell is changed and the grid stays 9x9. *)
Theorem create_random_board_fills (rand : nat -> nat) (b : board) :
  shape9 b ->
  exists b',
    create_random_board rand b = Some b' /\
    shape9 b' /\ fills_open_cells b b' /\
    (filled_cells b <= filled_cells b' <= filled_cells b + 19)%nat.
Proof.
  intros Hb. unfold create_random_board.
  set (N := randrange rand 0 10 20).
  assert (N <= 19)%nat as HN.
  { unfold N, randrange. pose proof (Nat.mod_upper_bound (rand 0%nat) (20 - 10)).
    lia. }
  fold scan_order.
  destruct (random_fill_spec (length scan_order) rand 1 N 0 scan_order b)
    as (b' & filled' & Hrun & Hb' & Hgrow & _ & Hcount & Hcells);
    [exact Hb | intros r c; apply scan_order_In | lia | lia |].
  exists b'. split; [exact Hrun |]. split; [exact Hb' |]. split; [exact Hgrow |]. lia.
Qed.

Lemma create_random_board_fills_witness :
  exists b',
    create_random_board (fun k => (7 * k + 3)%nat) empty_board = Some b' /\
    shape9 b' /\ fills_open_cells empty_board b' /\
    (filled_cells empty_board <= filled_cells b' <= filled_cells empty_board + 19)%nat.
Proof.
  apply (create_random_board_fills (fun k => (7 * k + 3)%nat) empty_board).
  split; [reflexivity | repeat constructor].
Defined.

(** X16.  [create_random_board] never breaks the rules: given a board without a
    repeated value in any row, column or box it returns such a board; in
    particular the board generated from the empty grid has no duplicate. *)
Theorem create_random_board_valid (rand : nat -> nat) (b : board) :
  shape9 b -> ~ duplicated b ->
  exists b', create_random_board rand b = Some b' /\ ~ duplicated b'.
Proof.
  intros Hb Hvalid. unfold create_random_board. fold scan_order.
  set (N := randrange rand 0 10 20).
  destruct (random_fill_spec (length scan_order) rand 1 N 0 scan_order b)
    as (b' & filled' & Hrun & _ & _ & Hkeep & _);
    [exact Hb | intros r c; apply scan_order_In | lia | lia |].
  exists b'. split; [exact Hrun | exact (Hkeep Hvalid)].
Qed.

Lemma empty_board_valid : ~ duplicated empty_board.
Proof.
  intros (r1 & c1 & r2 & c2 & Hr1 & Hc1 & _ & _ & _ & _ & _ & Hval).
  apply Hval. clear Hval.
  do 9 (destruct r1 as [| r1]; [do 9 (destruct c1 as [| c1]; [reflexivity |]); lia |]).
  lia.
Qed.

Lemma create_random_board_valid_witness :
  exists b',
    create_random_board (fun k => (7 * k + 3)%nat) empty_board = Some b' /\
    ~ duplicated b'.
Proof.
  apply (create_random_board_valid (fun k => (7 * k + 3)%nat) empty_board).
  - split; [reflexivity | repeat constructor].
  - exact empty_board_valid.
Defined.

(** ** Rendering *)

Lemma string_append_assoc (s1 s2 s3 : string) :
  ((s1 ++ s2) ++ s3 = s1 ++ (s2 ++ s3))%string.
Proof. induction s1 as [| a s1 IH]; cbn; [reflexivity | rewrite IH; reflexivity]. Qed.

Lemma string_append_empty (s : string) : (s ++ EmptyString)%string = s.
Proof. induction s as [| a s IH]; cbn; [reflexivity | rewrite IH; reflexivity]. Qed.

Lemma string_length_append (s1 s2 : string) :
  String.length (s1 ++ s2) = (String.length s1 + String.length s2)%nat.
Proof. induction s1 as [| a s1 IH]; cbn; [reflexivity | rewrite IH; reflexivity]. Qed.

Lemma write_rows_unlines (rows : board) (r : nat) (f : string) :
  write_rows r rows f = (f ++ unlines (print_rows r rows))%string.
Proof.
  revert r f. induction rows as [| row rest IH]; intros r f; cbn [write_rows print_rows unlines].
  - rewrite string_append_empty. reflexivity.
  - cbv zeta. rewrite IH. destruct ((r + 1) mod 3 =? 0)%nat; cbn [app unlines].
    + rewrite !string_append_assoc. reflexivity.
    + rewrite !string_append_assoc. reflexivity.
Qed.

(** X17.  What [print_board_to_file] appends to the file is exactly what
    [print_board] prints: the same lines in the same order, each ended by
    a line feed, after whatever the file held before. *)
Theorem file_shows_console (b : board) (file : string) :
  print_board_to_file b file = (file ++ unlines (print_board b))%string.
Proof.
  unfold print_board_to_file, print_board. rewrite write_rows_unlines.
  cbn [unlines]. rewrite !string_append_assoc. reflexivity.
Qed.

Lemma show_cell_length (n : Z) : -1 <= n <= 9 -> String.length (show_cell n) = 3%nat.
Proof.
  intros Hn. destruct (Z.eq_dec n (-1)) as [-> | Hdigit]; [reflexivity |].
  assert (exists k, (k <= 9)%nat /\ n = Z.of_nat k) as (k & Hk & ->)
      by (exists (Z.to_nat n); lia).
  do 10 (destruct k as [| k]; [reflexivity |]). lia.
Qed.

Lemma join_length (cells : list string) :
  Forall (fun s => String.length s = 3%nat) cells ->
  String.length (String.concat "|" cells) = (4 * length cells - 1)%nat.
Proof.
  induction 1 as [| x rest Hx Hrest IH]; [reflexivity |].
  destruct rest as [| y rest].
  - cbn. rewrite Hx. reflexivity.
  - change (String.concat "|" (x :: y :: rest))
      with (x ++ "|" ++ String.concat "|" (y :: rest))%string.
    rewrite !string_length_append, IH, Hx. cbn [String.length length]. lia.
Qed.

Lemma show_row_length (row : list Z) :
  length row = 9%nat -> Forall (fun n => -1 <= n <= 9) row ->
  String.length (show_row row) = 37%nat.
Proof.
  intros Hlen Hcells. unfold show_row.
  rewrite !string_length_append, join_length.
  - rewrite length_map, Hlen. reflexivity.
  - apply Forall_forall. intros s Hs.
    apply list_elem_of_In, in_map_iff in Hs as (n & <- & Hn).
    apply show_cell_length. rewrite Forall_forall in Hcells.
    apply Hcells, list_elem_of_In, Hn.
Qed.

Lemma print_rows_width (rows : board) (r : nat) :
  Forall (fun row => String.length (show_row row) = 37%nat) rows ->
  Forall (fun l => String.length l = 37%nat) (print_rows r rows).
Proof.
  intros Hrows. revert r. induction Hrows as [| row rest Hrow Hrest IH]; intros r;
    cbn [print_rows]; [constructor |].
  constructor; [exact Hrow |].
  destruct ((r + 1) mod 3 =? 0)%nat; cbn [app]; [constructor; [reflexivity |] |];
    apply IH.
Qed.

(** X18.  For a 9x9 board whose cells hold -1 or a number from 0 to 9,
    [print_board] prints 13 lines, all 37 characters wide; the first line
    and every fourth line after it are the separator. *)
Theorem print_board_layout (b : board) :
  shape9 b ->
  (forall r c, (r < 9)%nat -> (c < 9)%nat -> -1 <= cell b r c <= 9) ->
  length (print_board b) = 13%nat /\
  Forall (fun l => String.length l = 37%nat) (print_board b) /\
  (forall i, (i < 4)%nat -> print_board b !! (4 * i)%nat = Some separator).
Proof.
  intros Hb Hcells.
  assert (Forall (fun row => String.length (show_row row) = 37%nat) b) as Hrows.
  { apply Forall_forall. intros row Hrow.
    apply list_elem_of_lookup_total in Hrow as (r & Hr & <-).
    assert (r < 9)%nat as Hr9 by (destruct Hb; lia).
    apply show_row_length; [apply shape9_row; assumption |].
    apply Forall_forall. intros x Hx.
    apply list_elem_of_lookup_total in Hx as (c & Hc & <-).
    rewrite shape9_row in Hc by assumption. exact (Hcells r c Hr9 Hc). }
  split; [| split].
  - destruct Hb as [Hlen _].
    destruct b as [| r0 [| r1 [| r2 [| r3 [| r4 [| r5 [| r6 [| r7 [| r8 [| r9 l]]]]]]]]]];
      try discriminate Hlen.
    reflexivity.
  - unfold print_board. constructor; [reflexivity |].
    apply print_rows_width, Hrows.
  - intros i Hi. destruct Hb as [Hlen _].
    destruct b as [| r0 [| r1 [| r2 [| r3 [| r4 [| r5 [| r6 [| r7 [| r8 [| r9 l]]]]]]]]]];
      try discriminate Hlen.
    do 4 (destruct i as [| i]; [reflexivity |]). lia.
Qed.

Lemma print_board_layout_witness :
  length (print_board stale_board) = 13%nat /\
  Forall (fun l => String.length l = 37%nat) (print_board stale_board) /\
  (forall i, (i < 4)%nat -> print_board stale_board !! (4 * i)%nat = Some separator).
Proof.
  apply (print_board_layout stale_board).
  - split; [reflexivity | repeat constructor].
  - intros r c Hr Hc.
    do 9 (destruct r as [| r]; [do 9 (destruct c as [| c];
      [vm_compute; split; discriminate |]); lia |]).
    lia.
Defined.

(** ** Witnesses for the terminal outcomes *)

Lemma one_stage_success_sound_witness :
  (forall r c, (r < 9)%nat -> (c < 9)%nat -> cell (assign one_open_board 0 0 5) r c <> -1) /\
  ~ duplicated_below_nine (assign one_open_board 0 0 5).
Proof.
  pose proof (one_stage_success_sound
                2 one_open_board (possible_digits one_open_board)
                (Outcome FINISH_SUCCESS (Some (10, 10)) (assign one_open_board 0 0 5)
                         (assign (possible_digits one_open_board) 0 0 None))) as Hthm.
  apply Hthm.
  - split; [reflexivity | repeat constructor].
  - apply possible_digits_shape9.
  - vm_compute. reflexivity.
  - reflexivity.
Defined.

Lemma one_stage_failure_sound_witness :
  duplicated (assign (assign empty_board 0 0 5) 0 1 5) \/
  (assign (assign empty_board 0 0 5) 0 1 5 = assign (assign empty_board 0 0 5) 0 1 5 /\
   exists r c, (r < 9)%nat /\ (c < 9)%nat /\
               cell (assign (assign empty_board 0 0 5) 0 1 5) r c = -1 /\
               options (assign (assign empty_board 0 0 5) 0 1 5) (r, c) = []).
Proof.
  pose proof (one_stage_failure_sound
                1 (assign (assign empty_board 0 0 5) 0 1 5)
                (Outcome FINISH_FAILURE (Some (-1, -1))
                         (assign (assign empty_board 0 0 5) 0 1 5)
                         (possible_digits (assign (assign empty_board 0 0 5) 0 1 5))))
    as Hthm.
  apply Hthm.
  - apply assign_shape9, assign_shape9. split; [reflexivity | repeat constructor].
  - vm_compute. reflexivity.
  - reflexivity.
Defined.

(** X19.  On the candidates computed from a board, [possible_continuation]
    answers [True] exactly when some open cell has a single candidate. *)
Theorem single_candidate_exact (b : board) :
  shape9 b ->
  possible_continuation (possible_digits b) = true <->
  exists r c x, (r < 9)%nat /\ (c < 9)%nat /\ cell b r c = -1 /\ options b (r, c) = [x].
Proof.
  intros Hb. rewrite possible_continuation_true by apply possible_digits_shape9. split.
  - intros (r & c & Hr & Hc & Hsingle).
    rewrite entry_possible_digits in Hsingle by assumption.
    destruct (Z.eqb_spec (cell b r c) (-1)) as [Hopen | _]; [| discriminate].
    apply has_len_1 in Hsingle as [x Hx]. exists r, c, x.
    split; [exact Hr |]. split; [exact Hc |]. split; [exact Hopen | congruence].
  - intros (r & c & x & Hr & Hc & Hopen & Hx). exists r, c.
    split; [exact Hr |]. split; [exact Hc |].
    rewrite entry_possible_digits, Hopen, Hx by assumption. reflexivity.
Qed.

Lemma single_candidate_exact_witness :
  possible_continuation (possible_digits stale_board) = true <->
  exists r c x, (r < 9)%nat /\ (c < 9)%nat /\ cell stale_board r c = -1 /\
                options stale_board (r, c) = [x].
Proof.
  apply (single_candidate_exact stale_board).
  split; [reflexivity | repeat constructor].
Defined.
